(** * injectproxy/routes.go: tenant extraction, routing and request rewriting

    A shallow embedding of the request pipeline of the label proxy
    ([src/injectproxy/routes.go]) and the properties of it that the
    design document states. *)

From Stdlib Require Import String Ascii List Bool Arith Lia.
From stdpp Require Import base option gmap strings list fin_maps.

Local Open Scope string_scope.
Local Open Scope list_scope.

(** ** Go strings *)

Module GoStrings.

(** The double quote character, as a text. *)
Definition dquote : string := String (ascii_of_nat 34) EmptyString.

(** [strings.Split(s, sep)] for a one-byte separator, which is how the
    source calls it ([","]).  The result is never empty: a text without
    separator is returned whole, and the empty text yields one empty
    segment. *)
Fixpoint Split (s : string) (sep : ascii) : list string :=
  match s with
  | EmptyString => [EmptyString]
  | String c s' =>
      if Ascii.eqb c sep then EmptyString :: Split s' sep
      else match Split s' sep with
           | seg :: segs => String c seg :: segs
           | [] => [String c EmptyString]
           end
  end.

(** [strings.Join(elems, sep)]. *)
Fixpoint Join (elems : list string) (sep : string) : string :=
  match elems with
  | [] => EmptyString
  | [e] => e
  | e :: rest => e +:+ sep +:+ Join rest sep
  end.

(** Number of occurrences of a byte in a text. *)
Fixpoint count (c : ascii) (s : string) : nat :=
  match s with
  | EmptyString => 0
  | String a s' => (if Ascii.eqb a c then 1 else 0) + count c s'
  end.

Definition comma : ascii := ascii_of_nat 44.
Definition bar : ascii := ascii_of_nat 124.
Definition slash : ascii := ascii_of_nat 47.

(** A path element that path cleaning leaves alone. *)
Definition plainElement (e : string) : bool :=
  negb (String.eqb e EmptyString) && negb (String.eqb e ".")
  && negb (String.eqb e "..").

(** Rooted paths without empty, [.] or [..] elements (a trailing slash
    is allowed): the paths in canonical form. *)
Definition clean (p : string) : bool :=
  match Split p slash with
  | first :: rest =>
      String.eqb first EmptyString
      && forallb plainElement (List.removelast rest)
      && match List.last rest "." with
         | EmptyString => true
         | e => plainElement e
         end
  | [] => false
  end.

End GoStrings.

Import GoStrings.

(** ** Requests, responses and handlers *)

(** [url.Values] and [http.Header] are both [map[string][]string]. *)
Abbreviation Values := (gmap string (list string)).

(** [v.Get(key)]: the first value under [key], or the empty text. *)
Definition Values_Get (v : Values) (key : string) : string :=
  match v !! key with
  | Some (x :: _) => x
  | _ => EmptyString
  end.

(** [v.Set(key, value)] replaces whatever was under [key]. *)
Definition Values_Set (v : Values) (key value : string) : Values :=
  <[key := [value]]> v.

(** [v.Add(key, value)] appends to the values under [key]. *)
Definition Values_Add (v : Values) (key value : string) : Values :=
  <[key := default [] (v !! key) ++ [value]]> v.

(** [v.Del(key)]. *)
Definition Values_Del (v : Values) (key : string) : Values :=
  delete key v.

(** The part of [*http.Request] the handlers read or write.  The URL's
    query string is kept in parsed form: [req.URL.Query()] reads [Query]
    and [req.URL.RawQuery = q.Encode()] stores [q] back.  [PostForm] is
    what [ParseForm] finds in the body (empty when there is no form
    body).  [Context] is the value stored under [keyLabel], if any. *)
Record Request := mkRequest {
  Method : string;
  Path : string;
  Query : Values;
  Header : Values;
  PostForm : Values;
  Context : option (list string)
}.

(** [req.Form[key]] once the form is parsed: body values come first,
    then the values of the URL query; [None] is Go's [nil]. *)
Definition Form (req : Request) (key : string) : option (list string) :=
  match PostForm req !! key, Query req !! key with
  | None, None => None
  | b, u => Some (default [] b ++ default [] u)
  end.

(** [req.FormValue(key)]. *)
Definition FormValue (req : Request) (key : string) : string :=
  match Form req key with
  | Some (x :: _) => x
  | _ => EmptyString
  end.

(** [req.WithContext(ctx)]. *)
Definition WithContext (req : Request) (ctx : option (list string)) : Request :=
  mkRequest (Method req) (Path req) (Query req) (Header req) (PostForm req) ctx.

(** [req.URL.RawQuery = q.Encode()]. *)
Definition setRawQuery (req : Request) (q : Values) : Request :=
  mkRequest (Method req) (Path req) q (Header req) (PostForm req) (Context req).

(** The three ways the source panics. *)
Inductive PanicMsg :=
| CantFindValue
| EmptyValue
| InvalidSize (n : nat).

(** What one call of a handler does with the response writer and the
    upstream: it answers by itself, redirects, hands the request to the
    reverse proxy, returns having done none of these, or panics. *)
Inductive Outcome :=
| Replied (code : nat) (body : string)
| Redirected (url : string) (code : nat)
| Forwarded (req : Request)
| Silent
| Panicked (p : PanicMsg).

Definition Handler := Request -> Outcome.

Definition StatusOK : nat := 200%nat.
Definition StatusMovedPermanently : nat := 301%nat.
Definition StatusBadRequest : nat := 400%nat.
Definition StatusNotFound : nat := 404%nat.

(** [http.Error(w, error, code)]; the body is [error] and a line end. *)
Definition Error (error : string) (code : nat) : Outcome := Replied code error.

(** [http.NotFound(w, req)]. *)
Definition NotFound (req : Request) : Outcome :=
  Error "404 page not found" StatusNotFound.

(** The status line the client receives.  A handler that returns without
    writing makes net/http send 200 with an empty body; for a forwarded
    request the status is the upstream's, and a panic aborts the
    exchange. *)
Definition clientStatus (o : Outcome) : option nat :=
  match o with
  | Replied code _ => Some code
  | Redirected _ code => Some code
  | Silent => Some StatusOK
  | Forwarded _ => None
  | Panicked _ => None
  end.

Definition is4xx (o : Outcome) : bool :=
  match clientStatus o with
  | Some code => ((400 <=? code) && (code <? 500))%nat
  | None => false
  end.

(** Whether anything went upstream. *)
Definition sentUpstream (o : Outcome) : bool :=
  match o with
  | Forwarded _ => true
  | _ => false
  end.

(** ** Label matchers ([labels.Matcher]) *)

Inductive MatchType := MatchEqual | MatchNotEqual | MatchRegexp | MatchNotRegexp.

Definition MatchType_String (t : MatchType) : string :=
  match t with
  | MatchEqual => "="
  | MatchNotEqual => "!="
  | MatchRegexp => "=~"
  | MatchNotRegexp => "!~"
  end.

Record Matcher := mkMatcher {
  Name : string;
  Type_ : MatchType;
  Value : string
}.

(** ** The routes *)

(** [http.ServeMux]: the registered patterns with their handlers. *)
Definition ServeMux := list (string * Handler).

(** The fields of [routes] the request stage uses; [modifiers] and the
    upstream URL belong to the response stage and the transport. *)
Record routes := mkRoutes {
  handler : Handler;
  label : string;
  labelLocation : string;
  mux : ServeMux
}.

(** Results of the library calls that return [(value, error)]. *)
Inductive result (A : Type) :=
| Ok (a : A)
| Err (e : string).
Arguments Ok {A} a.
Arguments Err {A} e.

(** Functions that may panic. *)
Inductive M (A : Type) :=
| Ret (a : A)
| Panic (p : PanicMsg).
Arguments Ret {A} a.
Arguments Panic {A} p.

#[global] Instance M_bind : MBind M := fun A B k m =>
  match m with
  | Ret a => k a
  | Panic p => Panic p
  end.

(** What the file calls but does not define: the query-language front end
    ([parser.ParseExpr], [expr.String()]), the enforcer of the sibling
    file ([NewEnforcer(ms...).EnforceNode(expr)], which rewrites [expr]
    in place: here it returns the rewritten expression), the silence
    handlers, and three functions of Go's library: [%q] quoting,
    canonical header names and the path cleaning of [ServeMux]. *)
Class Externals := {
  Expr : Type;
  ParseExpr : string -> result Expr;
  Expr_String : Expr -> string;
  EnforceNode : list Matcher -> Expr -> result Expr;
  silences : routes -> Handler;
  deleteSilence : routes -> Handler;
  Quote : string -> string;
  CanonicalMIMEHeaderKey : string -> string;
  cleanPath : string -> string;
  cleanPath_clean : forall p, clean p = true -> cleanPath p = p
}.

Section Routes.

Context `{Externals}.

(** [m.String()]: [fmt.Sprintf("%s%s%q", m.Name, m.Type, m.Value)]. *)
Definition Matcher_String (m : Matcher) : string :=
  Name m +:+ MatchType_String (Type_ m) +:+ Quote (Value m).

(** [h.Get(key)]: header names are looked up in canonical form. *)
Definition Header_Get (h : Values) (key : string) : string :=
  Values_Get h (CanonicalMIMEHeaderKey key).

(** *** The router of net/http *)

Definition endsInSlash (pattern : string) : bool :=
  match String.length pattern with
  | O => false
  | S n => match String.get n pattern with
           | Some c => Ascii.eqb c "/"
           | None => false
           end
  end.

Definition exact (m : ServeMux) (path : string) : option (string * Handler) :=
  List.find (fun e => String.eqb (fst e) path) m.

(** The longest pattern ending in a slash that is a prefix of [path]. *)
Fixpoint longest (m : ServeMux) (path : string)
    (best : option (string * Handler)) : option (string * Handler) :=
  match m with
  | [] => best
  | (pattern, h) :: rest =>
      let better :=
        match best with
        | Some (b, _) => (String.length b <? String.length pattern)%nat
        | None => true
        end in
      if endsInSlash pattern && String.prefix pattern path && better
      then longest rest path (Some (pattern, h))
      else longest rest path best
  end.

(** [mux.match(path)]: the exact pattern wins, then the longest subtree
    pattern. *)
Definition ServeMux_match (m : ServeMux) (path : string)
    : option (string * Handler) :=
  match exact m path with
  | Some e => Some e
  | None => longest m path None
  end.

(** [http.RedirectHandler(url, code)] and [http.NotFoundHandler()]. *)
Definition RedirectHandler (url : string) (code : nat) : Handler :=
  fun _ => Redirected url code.
Definition NotFoundHandler : Handler := NotFound.

(** [mux.handler(host, path)], for patterns without host. *)
Definition ServeMux_handler (m : ServeMux) (path : string) : Handler * string :=
  match ServeMux_match m path with
  | Some (pattern, h) => (h, pattern)
  | None => (NotFoundHandler, EmptyString)
  end.

(** [mux.shouldRedirectRLocked(host, path)]: [/tree] is redirected to
    [/tree/] when only the latter is registered. *)
Definition shouldRedirect (m : ServeMux) (path : string) : bool :=
  match exact m path with
  | Some _ => false
  | None =>
      if String.eqb path EmptyString then false
      else match exact m (path +:+ "/") with
           | Some _ => negb (endsInSlash path)
           | None => false
           end
  end.

(** [mux.Handler(req)]: the handler to use and the pattern it was
    registered under.  A CONNECT request is matched on its path as it is;
    any other path is cleaned first and redirected when it was not
    clean. *)
Definition ServeMux_Handler (m : ServeMux) (req : Request) : Handler * string :=
  if String.eqb (Method req) "CONNECT" then
    if shouldRedirect m (Path req)
    then (RedirectHandler (Path req +:+ "/") StatusMovedPermanently,
          Path req +:+ "/")
    else ServeMux_handler m (Path req)
  else
    let path := cleanPath (Path req) in
    if shouldRedirect m path
    then (RedirectHandler (path +:+ "/") StatusMovedPermanently, path +:+ "/")
    else if negb (String.eqb path (Path req))
    then (RedirectHandler path StatusMovedPermanently,
          snd (ServeMux_handler m path))
    else ServeMux_handler m (Path req).

(** [mux.ServeHTTP(w, req)], for requests with a path (the request
    [OPTIONS *] has none and is refused before). *)
Definition ServeMux_ServeHTTP (m : ServeMux) : Handler := fun req =>
  fst (ServeMux_Handler m req) req.

(** *** routes.go *)

(** [enforceMethods(h, methods...)] *)
Definition enforceMethods (h : Handler) (methods : list string) : Handler :=
  fun req =>
    if existsb (fun m => String.eqb m (Method req)) methods
    then h req
    else NotFound req.

Definition mustLabelValue (ctx : option (list string)) : M (list string) :=
  match ctx with
  | None => Panic CantFindValue
  | Some lvalues =>
      if (length lvalues =? 0)%nat then Panic EmptyValue else Ret lvalues
  end.

(** The line printed to the standard output is left out, here and in
    [series]. *)
Definition createLabelMatcher (ctx : option (list string)) (label : string)
    : M Matcher :=
  lvalues ← mustLabelValue ctx;
  if (length lvalues =? 1)%nat then
    Ret (mkMatcher label MatchEqual (List.nth 0 lvalues EmptyString))
  else if (1 <? length lvalues)%nat then
    Ret (mkMatcher label MatchRegexp ("^(?:" +:+ Join lvalues "|" +:+ ")$"))
  else Panic (InvalidSize (length lvalues)).

Definition withLabelValue (ctx : option (list string)) (lvalues : list string)
    : option (list string) :=
  Some lvalues.

Definition noop (r : routes) : Handler := fun req =>
  handler r req.

(** The two bare [return]s leave the response writer untouched. *)
Definition query (r : routes) : Handler := fun req =>
  match ParseExpr (FormValue req "query") with
  | Err _ => Silent
  | Ok expr =>
      match createLabelMatcher (Context req) (label r) with
      | Panic p => Panicked p
      | Ret matcher =>
          match EnforceNode [matcher] expr with
          | Err _ => Silent
          | Ok expr =>
              let q := Query req in
              let q := Values_Set q "query" (Expr_String expr) in
              handler r (setRawQuery req q)
          end
      end
  end.

(** The loop of [series] over the [match[]] values: [inl] is a return
    from inside the loop, [inr] the query values after it. *)
Fixpoint seriesLoop (r : routes) (req : Request) (matches : list string)
    (q : Values) : Outcome + Values :=
  match matches with
  | [] => inr q
  | query :: matches =>
      match ParseExpr query with
      | Err _ => inl Silent
      | Ok expr =>
          match createLabelMatcher (Context req) (label r) with
          | Panic p => inl (Panicked p)
          | Ret matcher =>
              match EnforceNode [matcher] expr with
              | Err _ => inl Silent
              | Ok expr =>
                  seriesLoop r req matches
                    (Values_Add q "match[]" (Expr_String expr))
              end
          end
      end
  end.

(** [req.Form] is nil when the handler starts, so that the form is parsed
    here, from the body and the URL. *)
Definition series (r : routes) : Handler := fun req =>
  let matches := Form req "match[]" in
  let q := Query req in
  let q := Values_Del q "match[]" in
  let looped :=
    match matches with
    | Some matches => seriesLoop r req matches q
    | None => inr q
    end in
  match looped with
  | inl out => out
  | inr q => handler r (setRawQuery req q)
  end.

Definition federate (r : routes) : Handler := fun req =>
  match createLabelMatcher (Context req) (label r) with
  | Panic p => Panicked p
  | Ret matcher =>
      let q := Query req in
      let q := Values_Set q "match[]" ("{" +:+ Matcher_String matcher +:+ "}") in
      handler r (setRawQuery req q)
  end.

Definition ServeHTTP (r : routes) : Handler := fun req =>
  let lvalue :=
    if String.eqb (labelLocation r) "header"
    then Header_Get (Header req) (label r)
    else Values_Get (Query req) (label r) in
  if String.eqb lvalue EmptyString then
    Error ("Bad request. The " +:+ Quote (label r)
           +:+ " query parameter must be provided.") StatusBadRequest
  else
    let lvalues := Split lvalue comma in
    let req := WithContext req (withLabelValue (Context req) lvalues) in
    let q := Query req in
    let q := Values_Del q (label r) in
    let req := setRawQuery req q in
    ServeMux_ServeHTTP (mux r) req.

(** The reverse proxy made by [httputil.NewSingleHostReverseProxy]. *)
Definition proxy : Handler := Forwarded.

(** The calls [mux.Handle(pattern, enforceMethods(r.h, methods...))] of
    [NewRoutes], one row per call, in the order of the source. *)
Definition routeTable : list (string * (routes -> Handler) * list string) :=
  [ ("/federate", federate, ["GET"]);
    ("/api/v1/query", query, ["GET"; "POST"]);
    ("/api/v1/query_range", query, ["GET"; "POST"]);
    ("/api/v1/series", series, ["GET"; "POST"]);
    ("/api/v1/labels", noop, ["GET"]);
    ("/api/v1/label/__name__/values", noop, ["GET"]);
    ("/api/v1/alerts", noop, ["GET"]);
    ("/api/v1/rules", noop, ["GET"]);
    ("/api/v2/silences", silences, ["GET"; "POST"]);
    ("/api/v2/silences/", silences, ["GET"; "POST"]);
    ("/api/v2/silence/", deleteSilence, ["DELETE"]) ].

(** The handlers are method values of [r], registered before [r.mux] is
    assigned; they read [r.handler] and [r.label] only. *)
Definition NewRoutes (label labelLocation : string) : routes :=
  let r := mkRoutes proxy label labelLocation [] in
  let mux : ServeMux :=
    List.map (fun '(pattern, h, methods) =>
                (pattern, enforceMethods (h r) methods)) routeTable in
  mkRoutes proxy label labelLocation mux.

End Routes.

(** ** Stand-ins for the external functions, to run the code on examples

    They agree with the real functions on the inputs the examples use:
    lower-case metric names, printable texts without quote or backslash,
    canonical header names and clean paths. *)
Module Sample.

Record selector := mkSelector {
  metric : string;
  matchers : list Matcher
}.

Definition isLower (c : ascii) : bool :=
  let n := nat_of_ascii c in ((97 <=? n) && (n <=? 122))%nat.

Fixpoint allLower (s : string) : bool :=
  match s with
  | EmptyString => true
  | String c s' => isLower c && allLower s'
  end.

Definition parse (s : string) : result selector :=
  if String.eqb s EmptyString then Err "no expression found in input"
  else if allLower s then Ok (mkSelector s [])
  else Err "parse error".

Definition quote (s : string) : string := dquote +:+ s +:+ dquote.

Definition matcherText (m : Matcher) : string :=
  Name m +:+ MatchType_String (Type_ m) +:+ quote (Value m).

Definition print (e : selector) : string :=
  metric e +:+ "{" +:+ Join (List.map matcherText (matchers e)) "," +:+ "}".

Definition enforce (ms : list Matcher) (e : selector) : result selector :=
  Ok (mkSelector (metric e) (matchers e ++ ms)).

#[export] Instance libs : Externals := {|
  Expr := selector;
  ParseExpr := parse;
  Expr_String := print;
  EnforceNode := enforce;
  silences := fun r => handler r;
  deleteSilence := fun r => handler r;
  Quote := quote;
  CanonicalMIMEHeaderKey := fun s => s;
  cleanPath := fun s => s;
  cleanPath_clean := fun p _ => eq_refl
|}.

(** Requests used in the examples. *)
Definition get (path : string) (q : Values) : Request :=
  mkRequest "GET" path q ∅ ∅ None.

Definition getWithHeader (path : string) (q h : Values) : Request :=
  mkRequest "GET" path q h ∅ None.

Definition tenantA : Values := {[ "tenant" := ["a"] ]}.

End Sample.

(** ** Vocabulary of the properties *)

Section Vocabulary.

Context `{Externals}.

(** The raw tenant value [ServeHTTP] reads from the configured place. *)
Definition lvalue (r : routes) (req : Request) : string :=
  if String.eqb (labelLocation r) "header"
  then Header_Get (Header req) (label r)
  else Values_Get (Query req) (label r).

(** The request [ServeHTTP] hands to the router once the tenant value is
    found: the value list is in the context and the query string has
    lost the parameter named by the label. *)
Definition scoped (r : routes) (req : Request) : Request :=
  setRawQuery
    (WithContext req (withLabelValue (Context req) (Split (lvalue r req) comma)))
    (Values_Del (Query req) (label r)).

(** The tenant carrier is gone from a request: no value under the label
    in the configured place. *)
Definition carrierRemoved (r : routes) (req : Request) : bool :=
  String.eqb (lvalue r req) EmptyString.

Definition panics (o : Outcome) : bool :=
  match o with
  | Panicked _ => true
  | _ => false
  end.

(** The [query] parameter of a request does not parse, or the enforcer
    refuses the parsed expression. *)
Definition queryFails (label : string) (req : Request) : Prop :=
  (exists e, ParseExpr (FormValue req "query") = Err e) \/
  (exists expr matcher e,
      ParseExpr (FormValue req "query") = Ok expr /\
      createLabelMatcher (Context req) label = Ret matcher /\
      EnforceNode [matcher] expr = Err e).

(** A pattern of the router covers a path: a pattern ending in a slash
    names a subtree, any other pattern one path. *)
Definition pathMatch (pattern path : string) : bool :=
  if endsInSlash pattern then String.prefix pattern path
  else String.eqb pattern path.

End Vocabulary.

(** The text before the [)$] that ends [s], if [s] ends so. *)
Fixpoint dropClosing (s : string) : option string :=
  match s with
  | EmptyString => None
  | String c s' =>
      if String.eqb s ")$" then Some EmptyString
      else String c <$> dropClosing s'
  end.

(** How a regular expression engine reads a pattern [^(?:b1|...|bn)$]
    whose branches hold no operator: the branches are what the bars
    separate, and a text matches when it is one of them. *)
Definition branches (pattern : string) : option (list string) :=
  match pattern with
  | String "^" (String "(" (String "?" (String ":" rest))) =>
      (fun body => Split body bar) <$> dropClosing rest
  | _ => None
  end.

Definition acceptsAlternation (pattern text : string) : bool :=
  match branches pattern with
  | Some bs => existsb (String.eqb text) bs
  | None => false
  end.

(** ** Vocabulary of the further properties *)

(** Every byte [c] of a text turned into [d]. *)
Fixpoint replaceByte (c d : ascii) (s : string) : string :=
  match s with
  | EmptyString => EmptyString
  | String a s' => String (if Ascii.eqb a c then d else a) (replaceByte c d s')
  end.

Section Rewriting.

Context `{Externals}.

(** What [query] and the loop of [series] do with one expression text:
    parse it, enforce the matcher on it and print it, or fail. *)
Definition rewriteMatch (matcher : Matcher) (text : string) : option string :=
  match ParseExpr text with
  | Err _ => None
  | Ok expr =>
      match EnforceNode [matcher] expr with
      | Err _ => None
      | Ok expr => Some (Expr_String expr)
      end
  end.

End Rewriting.

(** ** The response stage *)

(** What [ModifyResponse] needs of [*http.Response] and of the sibling
    files: the path of the request a response answers
    ([resp.Request.URL.Path]) and the two modifiers
    [modifyAPIResponse(r.filterRules)] and
    [modifyAPIResponse(r.filterAlerts)].  A modifier rewrites the response
    in place and returns an error or [nil]: here it returns the response
    it leaves and the error, if any. *)
Class ResponseStage := {
  Response : Type;
  Response_Path : Response -> string;
  rulesModifier : routes -> Response -> Response * option string;
  alertsModifier : routes -> Response -> Response * option string
}.

Section Modify.

Context `{ResponseStage}.

(** The [modifiers] field of [routes], as [NewRoutes] fills it. *)
Definition modifiers (r : routes)
    : gmap string (Response -> Response * option string) :=
  <[ "/api/v1/alerts" := alertsModifier r ]>
    (<[ "/api/v1/rules" := rulesModifier r ]> ∅).

Definition ModifyResponse (r : routes) (resp : Response)
    : Response * option string :=
  match modifiers r !! Response_Path resp with
  | None => (resp, None)
  | Some m => m resp
  end.

End Modify.

(** A response stage to run [ModifyResponse] on examples: a response is
    the path it answers and a body, the rules modifier empties the body
    and the alerts modifier fails. *)
Module SampleResponse.

#[export] Instance stage : ResponseStage := {|
  Response := string * string;
  Response_Path := fst;
  rulesModifier := fun _ resp => ((fst resp, EmptyString), None);
  alertsModifier := fun _ resp => (resp, Some "unexpected end of JSON input")
|}.

Definition response (path body : string) : Response :=
  ((path, body) : string * string).

End SampleResponse.

(** * Properties *)

(** ** Splitting and joining *)

Section SplitJoin.

Variable sep : ascii.

Lemma Split_not_nil (s : string) : Split s sep <> [].
Proof.
  destruct s as [|c s]; simpl; [discriminate|].
  destruct (Ascii.eqb c sep); [discriminate|].
  destruct (Split s sep); discriminate.
Qed.

Lemma Split_length (s : string) : length (Split s sep) = S (count sep s).
Proof.
  induction s as [|c s IH]; simpl; [reflexivity|].
  destruct (Ascii.eqb c sep); simpl; [now rewrite IH|].
  destruct (Split s sep) as [|seg segs] eqn:E; simpl in *; [discriminate|].
  exact IH.
Qed.

Lemma Join_cons (e e' : string) (rest : list string) (d : string) :
  Join (e :: e' :: rest) d = e +:+ d +:+ Join (e' :: rest) d.
Proof. reflexivity. Qed.

(** Joining the segments with the separator gives the text back:
    splitting drops nothing but the separators. *)
Lemma Join_Split (s : string) : Join (Split s sep) (String sep EmptyString) = s.
Proof.
  induction s as [|c s IH]; simpl; [reflexivity|].
  destruct (Ascii.eqb_spec c sep) as [->|Hne].
  - destruct (Split s sep) as [|seg segs] eqn:E.
    + now destruct (Split_not_nil s).
    + rewrite Join_cons, IH. reflexivity.
  - destruct (Split s sep) as [|seg segs] eqn:E.
    + now destruct (Split_not_nil s).
    + destruct segs as [|seg' segs].
      * simpl in *. now rewrite IH.
      * rewrite Join_cons in *. rewrite <- IH. reflexivity.
Qed.

(** A separator ends the segment before it and starts the next one. *)
Lemma Split_app (a b : string) :
  Split (a +:+ String sep b) sep = Split a sep ++ Split b sep.
Proof.
  induction a as [|c a IH]; simpl.
  - now rewrite Ascii.eqb_refl.
  - destruct (Ascii.eqb c sep); simpl; [now rewrite IH|].
    rewrite IH.
    destruct (Split a sep) as [|seg segs] eqn:E; [|reflexivity].
    now destruct (Split_not_nil a).
Qed.

(** Two separators in a row enclose an empty segment, which is kept. *)
Lemma Split_empty_segment (a b : string) :
  Split (a +:+ String sep (String sep b)) sep
  = Split a sep ++ EmptyString :: Split b sep.
Proof.
  rewrite Split_app. simpl. now rewrite Ascii.eqb_refl.
Qed.

(** A text without separator is one segment. *)
Lemma Split_whole (s : string) : count sep s = 0 -> Split s sep = [s].
Proof.
  induction s as [|c s IH]; simpl; [reflexivity|].
  destruct (Ascii.eqb c sep); simpl; [discriminate|].
  intros Hc. now rewrite IH.
Qed.

(** Splitting undoes joining when no element contains the separator. *)
Lemma Split_Join (l : list string) :
  l <> [] -> Forall (fun e => count sep e = 0) l ->
  Split (Join l (String sep EmptyString)) sep = l.
Proof.
  induction l as [|e l IH]; [congruence|].
  intros _ Hall. inversion Hall as [|? ? He Hl]; subst.
  destruct l as [|e' l].
  - simpl. now apply Split_whole.
  - rewrite Join_cons.
    change (String sep EmptyString +:+ ?x) with (String sep x).
    rewrite Split_app, Split_whole by assumption.
    simpl. f_equal. apply IH; [discriminate|assumption].
Qed.

End SplitJoin.

Example Split_a_b : Split "a,b" comma = ["a"; "b"].
Proof. reflexivity. Qed.

Example Split_single : Split "a" comma = ["a"].
Proof. reflexivity. Qed.

Example Join_a_b : Join ["a"; "b"] "|" = "a|b".
Proof. reflexivity. Qed.

(** ** Tenant extraction ([ServeHTTP]) *)

Section Extraction.

Context `{Externals}.

Lemma ServeHTTP_missing (r : routes) (req : Request) :
  lvalue r req = EmptyString ->
  ServeHTTP r req
  = Error ("Bad request. The " +:+ Quote (label r)
           +:+ " query parameter must be provided.") StatusBadRequest.
Proof.
  unfold ServeHTTP, lvalue. intros ->. reflexivity.
Qed.

Lemma ServeHTTP_scoped (r : routes) (req : Request) :
  lvalue r req <> EmptyString ->
  ServeHTTP r req = ServeMux_ServeHTTP (mux r) (scoped r req).
Proof.
  intros Hne. unfold ServeHTTP, scoped.
  fold (lvalue r req).
  destruct (String.eqb_spec (lvalue r req) EmptyString); [contradiction|].
  reflexivity.
Qed.

(** An absent parameter or header reads as the empty text. *)
Lemma lvalue_absent_param (r : routes) (req : Request) :
  labelLocation r <> "header" -> Query req !! label r = None ->
  lvalue r req = EmptyString.
Proof.
  intros Hloc Hq. unfold lvalue, Values_Get.
  destruct (String.eqb_spec (labelLocation r) "header"); [contradiction|].
  now rewrite Hq.
Qed.

Lemma lvalue_absent_header (r : routes) (req : Request) :
  labelLocation r = "header" ->
  Header req !! CanonicalMIMEHeaderKey (label r) = None ->
  lvalue r req = EmptyString.
Proof.
  intros Hloc Hq. unfold lvalue, Header_Get, Values_Get.
  rewrite Hloc, Hq. reflexivity.
Qed.

Lemma scoped_Context (r : routes) (req : Request) :
  Context (scoped r req) = Some (Split (lvalue r req) comma).
Proof. reflexivity. Qed.

Lemma scoped_Query (r : routes) (req : Request) :
  Query (scoped r req) = delete (label r) (Query req).
Proof. reflexivity. Qed.

Lemma scoped_Header (r : routes) (req : Request) :
  Header (scoped r req) = Header req.
Proof. reflexivity. Qed.

End Extraction.

(** ** Matcher construction *)

Lemma mustLabelValue_present (lvalues : list string) :
  lvalues <> [] -> mustLabelValue (Some lvalues) = Ret lvalues.
Proof.
  destruct lvalues; [congruence|reflexivity].
Qed.

Lemma createLabelMatcher_single (label v : string) :
  createLabelMatcher (Some [v]) label = Ret (mkMatcher label MatchEqual v).
Proof. reflexivity. Qed.

Lemma createLabelMatcher_many (label : string) (lvalues : list string) :
  1 < length lvalues ->
  createLabelMatcher (Some lvalues) label
  = Ret (mkMatcher label MatchRegexp ("^(?:" +:+ Join lvalues "|" +:+ ")$")).
Proof.
  destruct lvalues as [|v [|v' rest]]; simpl; intros Hlen; try lia.
  reflexivity.
Qed.

Lemma createLabelMatcher_returns (label : string) (lvalues : list string) :
  lvalues <> [] -> exists m, createLabelMatcher (Some lvalues) label = Ret m.
Proof.
  destruct lvalues as [|v [|v' rest]]; [congruence| |]; intros _.
  - eexists. apply createLabelMatcher_single.
  - eexists. apply createLabelMatcher_many. simpl. lia.
Qed.

Lemma Split_comma_returns (label s : string) :
  exists m, createLabelMatcher (Some (Split s comma)) label = Ret m.
Proof. apply createLabelMatcher_returns, Split_not_nil. Qed.

(** C4: from a non-empty list of tenant values the matcher is built, on
    the configured label: with one value it is an equality matcher on
    that value, with more a regular expression matcher whose pattern is
    the anchored alternation of all the values, joined by bars in their
    order. *)
Theorem createLabelMatcher_shape (label : string) (lvalues : list string) :
  lvalues <> [] ->
  createLabelMatcher (Some lvalues) label
  = Ret match lvalues with
        | [v] => mkMatcher label MatchEqual v
        | _ => mkMatcher label MatchRegexp ("^(?:" +:+ Join lvalues "|" +:+ ")$")
        end
  /\ forall v v' rest,
       Join (v :: v' :: rest) "|" = v +:+ "|" +:+ Join (v' :: rest) "|".
Proof.
  intros Hne. split; [|reflexivity].
  destruct lvalues as [|v [|v' rest]]; [congruence| |].
  - apply createLabelMatcher_single.
  - apply createLabelMatcher_many. simpl. lia.
Qed.

Lemma createLabelMatcher_shape_witness :
  ["a"; "b"] <> [] /\
  createLabelMatcher (Some ["a"; "b"]) "tenant"
  = Ret (mkMatcher "tenant" MatchRegexp "^(?:a|b)$").
Proof.
  split; [discriminate|].
  apply (createLabelMatcher_shape "tenant" ["a"; "b"]). discriminate.
Defined.

Example createLabelMatcher_one :
  createLabelMatcher (Some ["a"]) "tenant" = Ret (mkMatcher "tenant" MatchEqual "a").
Proof. reflexivity. Qed.

Lemma dropClosing_app (body : string) :
  dropClosing (body +:+ ")$") = Some body.
Proof.
  induction body as [|c body IH]; [reflexivity|].
  change (dropClosing (String c body +:+ ")$"))
    with (if String.eqb (String c (body +:+ ")$")) ")$" then Some EmptyString
          else String c <$> dropClosing (body +:+ ")$")).
  destruct (String.eqb_spec (String c (body +:+ ")$")) ")$") as [Heq|_].
  - injection Heq as _ Heq. destruct body as [|c' [|c'' body]]; discriminate.
  - now rewrite IH.
Qed.

Lemma branches_pattern (lvalues : list string) :
  branches ("^(?:" +:+ Join lvalues "|" +:+ ")$")
  = Some (Split (Join lvalues "|") bar).
Proof.
  change (branches ("^(?:" +:+ Join lvalues "|" +:+ ")$"))
    with ((fun body => Split body bar) <$> dropClosing (Join lvalues "|" +:+ ")$")).
  now rewrite dropClosing_app.
Qed.

(** On values free of bars the reading of the alternation is the
    membership in the value list. *)
Lemma acceptsAlternation_sound (label text : string) (lvalues : list string)
    (m : Matcher) :
  1 < length lvalues ->
  Forall (fun e => count bar e = 0) lvalues -> In text lvalues ->
  createLabelMatcher (Some lvalues) label = Ret m ->
  acceptsAlternation (Value m) text = true.
Proof.
  intros Hlen Hplain Hin Hm.
  rewrite createLabelMatcher_many in Hm by assumption.
  injection Hm as <-. unfold acceptsAlternation. cbn [Value].
  rewrite branches_pattern.
  change "|" with (String bar EmptyString).
  rewrite Split_Join; [|destruct lvalues; [simpl in Hlen; lia|discriminate]|assumption].
  apply existsb_exists. exists text. split; [assumption|apply String.eqb_refl].
Qed.

(** Whatever the engine, as long as it accepts the branches of an
    alternation of plain texts, the pattern built from a value holding a
    bar accepts a text that is not a tenant value: the pattern is the one
    of the list with that value cut in two. *)
Lemma any_engine_accepts_outside (label : string)
    (accepts : string -> string -> bool) :
  (forall lvalues text m,
      1 < length lvalues ->
      Forall (fun e => count bar e = 0) lvalues -> In text lvalues ->
      createLabelMatcher (Some lvalues) label = Ret m ->
      accepts (Value m) text = true) ->
  exists m, createLabelMatcher (Some ["a|b"; "c"]) label = Ret m /\
            accepts (Value m) "a" = true /\ ~ In "a" ["a|b"; "c"].
Proof.
  intros Hsound. eexists. split; [reflexivity|]. split.
  - apply (Hsound ["a"; "b"; "c"] "a").
    + simpl. lia.
    + repeat constructor.
    + now left.
    + reflexivity.
  - simpl. intros [Heq|[Heq|[]]]; discriminate.
Qed.

Example alternation_engine_accepts_outside :
  exists m, createLabelMatcher (Some ["a|b"; "c"]) "tenant" = Ret m /\
            acceptsAlternation (Value m) "a" = true /\ ~ In "a" ["a|b"; "c"].
Proof.
  apply any_engine_accepts_outside. intros lvalues text m.
  apply acceptsAlternation_sound.
Qed.

(** C5: with more than one tenant value the pattern is the values joined
    by bars between [^(?:] and [)$], each value as it came, nothing
    escaped.  So a value holding a bar yields the very pattern of the
    list with that value cut in two, and that pattern accepts a text that
    is none of the tenant values. *)
Theorem regexp_pattern_verbatim (label : string) :
  (forall lvalues, 1 < length lvalues ->
     exists m, createLabelMatcher (Some lvalues) label = Ret m /\
               Type_ m = MatchRegexp /\
               Value m = "^(?:" +:+ Join lvalues "|" +:+ ")$") /\
  createLabelMatcher (Some ["a|b"; "c"]) label
  = createLabelMatcher (Some ["a"; "b"; "c"]) label /\
  (exists lvalues text m,
     1 < length lvalues /\ ~ In text lvalues /\
     createLabelMatcher (Some lvalues) label = Ret m /\
     acceptsAlternation (Value m) text = true).
Proof.
  split; [|split].
  - intros lvalues Hlen. eexists. split; [now apply createLabelMatcher_many|].
    split; reflexivity.
  - reflexivity.
  - exists ["a|b"; "c"], "a". eexists. split; [simpl; lia|]. split.
    + simpl. intros [Heq|[Heq|[]]]; discriminate.
    + split; reflexivity.
Qed.

Lemma regexp_pattern_verbatim_witness :
  1 < length ["x.*"; "y"] /\
  exists m, createLabelMatcher (Some ["x.*"; "y"]) "tenant" = Ret m /\
            Type_ m = MatchRegexp /\ Value m = "^(?:x.*|y)$".
Proof.
  split; [simpl; lia|].
  apply (proj1 (regexp_pattern_verbatim "tenant") ["x.*"; "y"]). simpl; lia.
Defined.

(** ** The handlers *)

Section Handlers.

Context `{Externals}.

Lemma enforceMethods_allowed (h : Handler) (methods : list string) (req : Request) :
  In (Method req) methods -> enforceMethods h methods req = h req.
Proof.
  intros Hin. unfold enforceMethods.
  replace (existsb _ methods) with true; [reflexivity|].
  symmetry. apply existsb_exists. exists (Method req).
  split; [assumption|apply String.eqb_refl].
Qed.

Lemma enforceMethods_refused (h : Handler) (methods : list string) (req : Request) :
  ~ In (Method req) methods -> enforceMethods h methods req = NotFound req.
Proof.
  intros Hnin. unfold enforceMethods.
  destruct (existsb _ methods) eqn:E; [|reflexivity].
  apply existsb_exists in E as (m & Hin & Heq).
  apply String.eqb_eq in Heq. subst m. contradiction.
Qed.

Lemma federate_forwards (r : routes) (req : Request) (m : Matcher) :
  createLabelMatcher (Context req) (label r) = Ret m ->
  federate r req
  = handler r (setRawQuery req
      (Values_Set (Query req) "match[]" ("{" +:+ Matcher_String m +:+ "}"))).
Proof.
  intros Hm. unfold federate. now rewrite Hm.
Qed.

Lemma query_fails_silent (r : routes) (req : Request) :
  queryFails (label r) req -> query r req = Silent.
Proof.
  unfold query.
  intros [[e He]|(expr & m & e & Hp & Hm & He)].
  - now rewrite He.
  - now rewrite Hp, Hm, He.
Qed.

(** With a matcher at hand the loop of [series] leaves early only by a
    plain return. *)
Lemma seriesLoop_returns (r : routes) (req : Request) (m : Matcher)
    (matches : list string) :
  createLabelMatcher (Context req) (label r) = Ret m ->
  forall q out, seriesLoop r req matches q = inl out -> out = Silent.
Proof.
  intros Hm. induction matches as [|x matches IH]; intros q out; simpl.
  - discriminate.
  - destruct (ParseExpr x); [|congruence].
    rewrite Hm. destruct (EnforceNode [m] a); [apply IH|congruence].
Qed.

Lemma series_without_matches (r : routes) (req : Request) :
  Form req "match[]" = None ->
  series r req = handler r (setRawQuery req (Values_Del (Query req) "match[]")).
Proof.
  intros Hf. unfold series. now rewrite Hf.
Qed.

Lemma seriesLoop_keeps (r : routes) (req : Request) (key : string)
    (matches : list string) :
  key <> "match[]" ->
  forall q q', seriesLoop r req matches q = inr q' -> q' !! key = q !! key.
Proof.
  intros Hkey. induction matches as [|x matches IH]; intros q q'; simpl.
  - now intros [= <-].
  - destruct (ParseExpr x); [|discriminate].
    destruct (createLabelMatcher _ _); [|discriminate].
    destruct (EnforceNode _ _); [|discriminate].
    intros Hloop. rewrite (IH _ _ Hloop). unfold Values_Add.
    apply lookup_insert_ne. intros E. now apply Hkey.
Qed.

(** A return from inside the loop sends nothing upstream. *)
Lemma seriesLoop_exit (r : routes) (req : Request) (matches : list string) :
  forall q out, seriesLoop r req matches q = inl out -> sentUpstream out = false.
Proof.
  induction matches as [|x matches IH]; intros q out; simpl.
  - discriminate.
  - destruct (ParseExpr x); [|now intros [= <-]].
    destruct (createLabelMatcher _ _); [|now intros [= <-]].
    destruct (EnforceNode _ _); [apply IH|now intros [= <-]].
Qed.

(** The handlers of the file write the [query] and [match[]] values of
    the query string and no other: a parameter under another name that
    is absent when they start is absent from what they forward. *)
Lemma handlers_keep_absent (r : routes) (req req' : Request) (key : string) :
  handler r = proxy ->
  key <> "query" -> key <> "match[]" ->
  Query req !! key = None ->
  noop r req = Forwarded req' \/ query r req = Forwarded req' \/
  series r req = Forwarded req' \/ federate r req = Forwarded req' ->
  Query req' !! key = None.
Proof.
  intros Hproxy Hk1 Hk2 Habsent.
  unfold noop, query, series, federate. rewrite Hproxy. unfold proxy.
  intros [Hf|[Hf|[Hf|Hf]]].
  - now injection Hf as <-.
  - destruct (ParseExpr _); [|discriminate].
    destruct (createLabelMatcher _ _); [|discriminate].
    destruct (EnforceNode _ _); [|discriminate].
    injection Hf as <-. cbn [Query setRawQuery]. unfold Values_Set.
    rewrite lookup_insert_ne by (intros E; now apply Hk1). exact Habsent.
  - assert (Values_Del (Query req) "match[]" !! key = None) as Hdel.
    { unfold Values_Del. rewrite lookup_delete_ne by (intros E; now apply Hk2).
      exact Habsent. }
    destruct (Form req "match[]") as [matches|].
    + destruct (seriesLoop r req matches _) as [out|q] eqn:E.
      * apply seriesLoop_exit in E. rewrite Hf in E. discriminate.
      * injection Hf as <-. cbn [Query setRawQuery].
        now rewrite (seriesLoop_keeps _ _ _ _ Hk2 _ _ E).
    + injection Hf as <-. exact Hdel.
  - destruct (createLabelMatcher _ _); [|discriminate].
    injection Hf as <-. cbn [Query setRawQuery]. unfold Values_Set.
    rewrite lookup_insert_ne by (intros E; now apply Hk2). exact Habsent.
Qed.

(** No handler of the file panics on a request whose context holds a
    non-empty value list, unless the reverse proxy does. *)
Lemma handlers_do_not_panic (r : routes) (req : Request) (lvalues : list string) :
  Context req = Some lvalues -> lvalues <> [] ->
  (forall x, panics (handler r x) = false) ->
  panics (noop r req) = false /\ panics (federate r req) = false /\
  panics (query r req) = false /\ panics (series r req) = false.
Proof.
  intros Hctx Hne Hproxy.
  destruct (createLabelMatcher_returns (label r) lvalues Hne) as [m Hm].
  rewrite <- Hctx in Hm.
  split; [apply Hproxy|]. split; [|split].
  - rewrite (federate_forwards _ _ _ Hm). apply Hproxy.
  - unfold query. destruct (ParseExpr _); [|reflexivity].
    rewrite Hm. destruct (EnforceNode _ _); [apply Hproxy|reflexivity].
  - unfold series.
    destruct (Form req "match[]") as [matches|]; [|apply Hproxy].
    destruct (seriesLoop r req matches _) as [out|q] eqn:E; [|apply Hproxy].
    now rewrite (seriesLoop_returns _ _ _ _ Hm _ _ E).
Qed.

(** Without a value list in the context, or with an empty one,
    [federate] panics, and so do [query] and [series] once an
    expression has parsed. *)
Lemma handlers_panic_without_values (r : routes) (req : Request) :
  Context req = None \/ Context req = Some [] ->
  exists p, federate r req = Panicked p /\
    (forall expr, ParseExpr (FormValue req "query") = Ok expr ->
                  query r req = Panicked p) /\
    (forall x rest expr, Form req "match[]" = Some (x :: rest) ->
                         ParseExpr x = Ok expr -> series r req = Panicked p).
Proof.
  intros Hctx.
  assert (exists p, createLabelMatcher (Context req) (label r) = Panic p) as [p Hp].
  { destruct Hctx as [-> | ->]; eexists; reflexivity. }
  exists p. split; [|split].
  - unfold federate. now rewrite Hp.
  - intros expr He. unfold query. now rewrite He, Hp.
  - intros x rest expr Hf He. unfold series. rewrite Hf. simpl.
    now rewrite He, Hp.
Qed.

End Handlers.

(** ** The claims about tenant extraction *)

Section ExtractionClaims.

Context `{Externals}.

(** C3: when the tenant value read from the configured header or query
    parameter is absent or empty, the answer is 400 with a message
    that names the label, whatever the router and the proxy are, and
    nothing is sent upstream. *)
Theorem missing_tenant_rejected (r : routes) (req : Request) :
  lvalue r req = EmptyString ->
  ServeHTTP r req
  = Replied 400 ("Bad request. The " +:+ Quote (label r)
                 +:+ " query parameter must be provided.") /\
  sentUpstream (ServeHTTP r req) = false /\
  forall (h : Handler) (m : ServeMux),
    ServeHTTP (mkRoutes h (label r) (labelLocation r) m) req = ServeHTTP r req.
Proof.
  intros Hempty. pose proof (ServeHTTP_missing r req Hempty) as Hr.
  split; [exact Hr|]. split; [now rewrite Hr|].
  intros h m. rewrite Hr.
  apply (ServeHTTP_missing (mkRoutes h (label r) (labelLocation r) m)).
  exact Hempty.
Qed.

(** C8: a non-empty tenant value is split at its commas, and the
    segments, in order, are the value list of the request context.
    Nothing but the commas is dropped: joining the segments with commas
    gives the value back, there is one segment more than there are
    commas, and two commas in a row enclose an empty segment. *)
Theorem tenant_values_split (r : routes) (req : Request) :
  lvalue r req <> EmptyString ->
  ServeHTTP r req = ServeMux_ServeHTTP (mux r) (scoped r req) /\
  Context (scoped r req) = Some (Split (lvalue r req) comma) /\
  Join (Split (lvalue r req) comma) "," = lvalue r req /\
  length (Split (lvalue r req) comma) = S (count comma (lvalue r req)) /\
  (forall a b, lvalue r req = a +:+ ",," +:+ b ->
     Split (lvalue r req) comma
     = Split a comma ++ EmptyString :: Split b comma) /\
  Split "a,,b" comma = ["a"; EmptyString; "b"].
Proof.
  intros Hne. split; [now apply ServeHTTP_scoped|].
  split; [reflexivity|]. split; [apply (Join_Split comma)|].
  split; [apply Split_length|]. split; [|reflexivity].
  intros a b ->. apply (Split_empty_segment comma).
Qed.

(** C7: a request that passed the tenant check reaches the router with
    a value list in its context that is not empty, so that
    [mustLabelValue] and [createLabelMatcher] return and no handler of
    the file panics on it (unless the proxy does); on a missing or
    empty list both panic, and so does a handler that reaches them. *)
Theorem tenant_context_not_empty (r : routes) (req : Request) :
  lvalue r req <> EmptyString ->
  ServeHTTP r req = ServeMux_ServeHTTP (mux r) (scoped r req) /\
  (exists lvalues,
      Context (scoped r req) = Some lvalues /\ lvalues <> [] /\
      mustLabelValue (Context (scoped r req)) = Ret lvalues /\
      exists m, createLabelMatcher (Context (scoped r req)) (label r) = Ret m) /\
  (forall r' : routes,
      (forall x, panics (handler r' x) = false) ->
      panics (noop r' (scoped r req)) = false /\
      panics (federate r' (scoped r req)) = false /\
      panics (query r' (scoped r req)) = false /\
      panics (series r' (scoped r req)) = false) /\
  (forall label,
      mustLabelValue None = Panic CantFindValue /\
      mustLabelValue (Some []) = Panic EmptyValue /\
      createLabelMatcher None label = Panic CantFindValue /\
      createLabelMatcher (Some []) label = Panic EmptyValue) /\
  (forall (r' : routes) (req' : Request),
      Context req' = None \/ Context req' = Some [] ->
      panics (federate r' req') = true).
Proof.
  intros Hne. split; [now apply ServeHTTP_scoped|].
  pose proof (Split_not_nil comma (lvalue r req)) as Hnil.
  split; [|split; [|split]].
  - exists (Split (lvalue r req) comma). split; [reflexivity|].
    split; [assumption|]. split.
    + now apply mustLabelValue_present.
    + now apply createLabelMatcher_returns.
  - intros r' Hproxy.
    now apply (handlers_do_not_panic r' _ (Split (lvalue r req) comma)).
  - intros label. repeat split.
  - intros r' req' Hctx.
    destruct (handlers_panic_without_values r' req' Hctx) as (p & -> & _).
    reflexivity.
Qed.

(** C2, as the code has it: a request that passed the tenant check
    reaches the router without the query parameter named by the label,
    whichever place the tenant value is read from, and the handlers of
    the file, which set [query] and [match[]] only, forward it without
    that parameter; the headers are the ones the request came with. *)
Theorem tenant_parameter_deleted (r : routes) (req : Request) :
  lvalue r req <> EmptyString ->
  ServeHTTP r req = ServeMux_ServeHTTP (mux r) (scoped r req) /\
  Query (scoped r req) !! label r = None /\
  Values_Get (Query (scoped r req)) (label r) = EmptyString /\
  (forall key, key <> label r ->
               Query (scoped r req) !! key = Query req !! key) /\
  (forall (r' : routes) (req' : Request),
      handler r' = proxy ->
      label r <> "query" -> label r <> "match[]" ->
      noop r' (scoped r req) = Forwarded req' \/
      query r' (scoped r req) = Forwarded req' \/
      series r' (scoped r req) = Forwarded req' \/
      federate r' (scoped r req) = Forwarded req' ->
      Query req' !! label r = None) /\
  Header (scoped r req) = Header req.
Proof.
  intros Hne. split; [now apply ServeHTTP_scoped|].
  assert (Query (scoped r req) !! label r = None) as Hdel.
  { rewrite scoped_Query. apply lookup_delete_eq. }
  split; [exact Hdel|]. split; [unfold Values_Get; now rewrite Hdel|].
  split; [|split; [|reflexivity]].
  - intros key Hkey. rewrite scoped_Query.
    apply lookup_delete_ne. intros E. now apply Hkey.
  - intros r' req' Hproxy Hk1 Hk2.
    now apply handlers_keep_absent.
Qed.

End ExtractionClaims.

(** ** The router *)

Lemma prefix_split (p s : string) :
  String.prefix p s = true -> exists rest, s = p +:+ rest.
Proof.
  revert s. induction p as [|c p IH]; intros s Hp.
  - now exists s.
  - destruct s as [|c' s]; [discriminate|]. simpl in Hp.
    destruct (Ascii.ascii_dec c c') as [->|]; [|discriminate].
    destruct (IH s Hp) as [rest ->]. now exists rest.
Qed.

Section Router.

Context `{Externals}.

(** A clean path that a registered pattern covers is served by the
    handler registered under that pattern, behind its method check. *)
Lemma NewRoutes_dispatch (label loc : string) (req : Request)
    (p : string) (hm : routes -> Handler) (ms : list string) :
  In (p, hm, ms) routeTable ->
  pathMatch p (Path req) = true ->
  clean (Path req) = true ->
  ServeMux_ServeHTTP (mux (NewRoutes label loc)) req
  = enforceMethods (hm (mkRoutes proxy label loc [])) ms req.
Proof.
  intros Hin Hmatch Hclean.
  assert (shouldRedirect (mux (NewRoutes label loc)) (Path req) = false
          /\ ServeMux_handler (mux (NewRoutes label loc)) (Path req)
             = (enforceMethods (hm (mkRoutes proxy label loc [])) ms, p))
    as [Hredirect Hhandler].
  { simpl in Hin.
    repeat (destruct Hin as [Hin|Hin]; [inversion Hin; subst; clear Hin|]);
      try contradiction.
    all: unfold pathMatch in Hmatch;
      match type of Hmatch with
      | context [endsInSlash ?p] =>
          let b := eval vm_compute in (endsInSlash p) in
          change (endsInSlash p) with b in Hmatch
      end; cbv iota in Hmatch.
    all: try (apply String.eqb_eq in Hmatch; rewrite <- Hmatch;
              split; reflexivity).
    all: apply prefix_split in Hmatch as [rest Hrest]; rewrite Hrest.
    all: destruct rest; split; reflexivity. }
  unfold ServeMux_ServeHTTP, ServeMux_Handler.
  rewrite (cleanPath_clean _ Hclean), String.eqb_refl, Hredirect, Hhandler.
  now destruct (String.eqb (Method req) "CONNECT").
Qed.

End Router.

Section RouterClaims.

Context `{Externals}.

Lemma NewRoutes_label (l loc : string) : label (NewRoutes l loc) = l.
Proof. reflexivity. Qed.

Lemma scoped_method_listed (r : routes) (req : Request) (a b : string) :
  Method req = a \/ Method req = b -> In (Method (scoped r req)) [a; b].
Proof.
  intros [<-|<-]; simpl; tauto.
Qed.

Lemma ServeHTTP_dispatch (label loc : string) (req : Request)
    (p : string) (hm : routes -> Handler) (ms : list string) :
  lvalue (NewRoutes label loc) req <> EmptyString ->
  In (p, hm, ms) routeTable ->
  pathMatch p (Path req) = true ->
  clean (Path req) = true ->
  ServeHTTP (NewRoutes label loc) req
  = enforceMethods (hm (mkRoutes proxy label loc [])) ms
      (scoped (NewRoutes label loc) req).
Proof.
  intros Hne Hin Hmatch Hclean.
  rewrite ServeHTTP_scoped by assumption.
  now apply (NewRoutes_dispatch label loc _ p hm ms).
Qed.

(** C10: a request on a path that a registered route covers, with a
    method the route does not list, is answered 404 by the router, and
    the answer does not depend on the handler of the route; so it is
    for the gateway once the tenant value is there. *)
Theorem method_not_listed_not_found (label loc : string) (req : Request)
    (p : string) (hm : routes -> Handler) (ms : list string) :
  In (p, hm, ms) routeTable ->
  pathMatch p (Path req) = true ->
  clean (Path req) = true ->
  ~ In (Method req) ms ->
  ServeMux_ServeHTTP (mux (NewRoutes label loc)) req
  = Replied 404 "404 page not found" /\
  (forall h : Handler, enforceMethods h ms req = Replied 404 "404 page not found") /\
  (lvalue (NewRoutes label loc) req <> EmptyString ->
   ServeHTTP (NewRoutes label loc) req = Replied 404 "404 page not found").
Proof.
  intros Hin Hmatch Hclean Hmethod. split; [|split].
  - rewrite (NewRoutes_dispatch _ _ _ _ _ _ Hin Hmatch Hclean).
    now apply enforceMethods_refused.
  - intros h. now apply enforceMethods_refused.
  - intros Hne.
    rewrite (ServeHTTP_dispatch _ _ _ _ _ _ Hne Hin Hmatch Hclean).
    now apply enforceMethods_refused.
Qed.

(** C6: a GET request to [/federate] that carries a tenant value is
    forwarded with exactly one [match[]] value, the selector made of
    the tenant matcher alone, whatever [match[]] values it came with;
    for a single tenant value the selector is [{label="value"}]. *)
Theorem federate_match_is_tenant_matcher (label loc : string) (req : Request) :
  Method req = "GET" ->
  Path req = "/federate" ->
  lvalue (NewRoutes label loc) req <> EmptyString ->
  exists (m : Matcher) (req' : Request),
    createLabelMatcher (Some (Split (lvalue (NewRoutes label loc) req) comma)) label
    = Ret m /\
    ServeHTTP (NewRoutes label loc) req = Forwarded req' /\
    Query req' !! "match[]" = Some ["{" +:+ Matcher_String m +:+ "}"] /\
    (forall key, key <> "match[]" -> key <> label ->
                 Query req' !! key = Query req !! key) /\
    (count comma (lvalue (NewRoutes label loc) req) = 0 ->
     Matcher_String m
     = label +:+ "=" +:+ Quote (lvalue (NewRoutes label loc) req)).
Proof.
  intros Hmethod Hpath Hne.
  destruct (Split_comma_returns label (lvalue (NewRoutes label loc) req))
    as [m Hm].
  exists m. eexists. split; [exact Hm|].
  rewrite (ServeHTTP_dispatch label loc req "/federate" federate ["GET"]);
    [|assumption|now left|now rewrite Hpath|now rewrite Hpath].
  rewrite enforceMethods_allowed
    by (cbn [Method scoped setRawQuery WithContext]; rewrite Hmethod; now left).
  rewrite (federate_forwards _ _ m) by exact Hm.
  split; [reflexivity|]. cbn [handler proxy Query setRawQuery].
  unfold Values_Set, scoped. cbn [Query setRawQuery WithContext].
  split; [apply lookup_insert_eq|]. split.
  - intros key Hk1 Hk2.
    rewrite lookup_insert_ne by (intros E; now apply Hk1).
    unfold Values_Del. rewrite NewRoutes_label.
    now rewrite lookup_delete_ne by (intros E; now apply Hk2).
  - intros Hc. rewrite (Split_whole comma _ Hc) in Hm.
    rewrite createLabelMatcher_single in Hm. injection Hm as <-.
    reflexivity.
Qed.

(** C9: a request to [/api/v1/series] that carries a tenant value and no
    [match[]] value, in the URL or in the body, is forwarded as the
    router received it; a request to a query endpoint without [query]
    value is not, when the parser refuses the empty text. *)
Theorem series_without_match_forwarded (label loc : string) (req : Request) :
  Path req = "/api/v1/series" ->
  Method req = "GET" \/ Method req = "POST" ->
  lvalue (NewRoutes label loc) req <> EmptyString ->
  Query req !! "match[]" = None ->
  PostForm req !! "match[]" = None ->
  ServeHTTP (NewRoutes label loc) req
  = Forwarded (scoped (NewRoutes label loc) req) /\
  forall req2 : Request,
    Path req2 = "/api/v1/query" \/ Path req2 = "/api/v1/query_range" ->
    Method req2 = "GET" \/ Method req2 = "POST" ->
    lvalue (NewRoutes label loc) req2 <> EmptyString ->
    Query req2 !! "query" = None ->
    PostForm req2 !! "query" = None ->
    (exists e, ParseExpr EmptyString = Err e) ->
    ServeHTTP (NewRoutes label loc) req2 = Silent.
Proof.
  intros Hpath Hmethod Hne Hq Hb. split.
  - rewrite (ServeHTTP_dispatch label loc req "/api/v1/series" series ["GET"; "POST"]);
      [|assumption|simpl; tauto|now rewrite Hpath|now rewrite Hpath].
    rewrite enforceMethods_allowed by now apply scoped_method_listed.
    assert (Query (scoped (NewRoutes label loc) req) !! "match[]" = None) as Hq'.
    { rewrite scoped_Query. apply lookup_delete_None. now right. }
    rewrite series_without_matches.
    + cbn [handler proxy]. unfold Values_Del. rewrite delete_id by exact Hq'.
      reflexivity.
    + unfold Form. rewrite Hq'.
      cbn [PostForm scoped setRawQuery WithContext]. now rewrite Hb.
  - intros req2 Hpath2 Hmethod2 Hne2 Hq2 Hb2 [e He].
    assert (ServeHTTP (NewRoutes label loc) req2
            = query (mkRoutes proxy label loc []) (scoped (NewRoutes label loc) req2))
      as ->.
    { destruct Hpath2 as [Hp|Hp].
      - rewrite (ServeHTTP_dispatch label loc req2 "/api/v1/query" query ["GET"; "POST"]);
          [|assumption|simpl; tauto|now rewrite Hp|now rewrite Hp].
        apply enforceMethods_allowed. now apply scoped_method_listed.
      - rewrite (ServeHTTP_dispatch label loc req2 "/api/v1/query_range" query ["GET"; "POST"]);
          [|assumption|simpl; tauto|now rewrite Hp|now rewrite Hp].
        apply enforceMethods_allowed. now apply scoped_method_listed. }
    apply query_fails_silent. left. exists e.
    unfold FormValue, Form.
    replace (Query (scoped (NewRoutes label loc) req2) !! "query") with (@None (list string)).
    + cbn [PostForm scoped setRawQuery WithContext]. now rewrite Hb2.
    + symmetry. rewrite scoped_Query. apply lookup_delete_None. now right.
Qed.

(** C1, what the code does: when the [query] value of a request to a
    query endpoint does not parse, or the enforcer refuses it, the
    handler returns without a word: nothing goes upstream, and no
    error status is written either, so that the client receives an
    empty 200. *)
Theorem query_failure_not_reported (label loc : string) (req : Request) :
  Path req = "/api/v1/query" \/ Path req = "/api/v1/query_range" ->
  Method req = "GET" \/ Method req = "POST" ->
  lvalue (NewRoutes label loc) req <> EmptyString ->
  queryFails label (scoped (NewRoutes label loc) req) ->
  ServeHTTP (NewRoutes label loc) req = Silent /\
  sentUpstream (ServeHTTP (NewRoutes label loc) req) = false /\
  clientStatus (ServeHTTP (NewRoutes label loc) req) = Some 200 /\
  is4xx (ServeHTTP (NewRoutes label loc) req) = false.
Proof.
  intros Hpath Hmethod Hne Hfail.
  assert (ServeHTTP (NewRoutes label loc) req = Silent) as ->;
    [|repeat split].
  destruct Hpath as [Hp|Hp].
  - rewrite (ServeHTTP_dispatch label loc req "/api/v1/query" query ["GET"; "POST"]);
      [|assumption|simpl; tauto|now rewrite Hp|now rewrite Hp].
    rewrite enforceMethods_allowed by now apply scoped_method_listed.
    now apply query_fails_silent.
  - rewrite (ServeHTTP_dispatch label loc req "/api/v1/query_range" query ["GET"; "POST"]);
      [|assumption|simpl; tauto|now rewrite Hp|now rewrite Hp].
    rewrite enforceMethods_allowed by now apply scoped_method_listed.
    now apply query_fails_silent.
Qed.

End RouterClaims.

(** ** The code at work on concrete requests *)

Import Sample.


(** C2, as the design document has it, fails where the tenant value
    travels in a header: the request goes upstream with the header on
    it, and reading the carrier from the forwarded request still gives
    the tenant value. *)
Lemma tenant_header_still_forwarded :
  let r := NewRoutes "X-Tenant" "header" in
  let req := getWithHeader "/api/v1/labels" ∅ {[ "X-Tenant" := ["a"] ]} in
  ServeHTTP r req = Forwarded (scoped r req) /\
  carrierRemoved r (scoped r req) = false /\
  Header_Get (Header (scoped r req)) "X-Tenant" = "a".
Proof.
  cbv zeta. split; [|split]; vm_compute; reflexivity.
Qed.

Lemma tenant_parameter_deleted_witness :
  let r := NewRoutes "tenant" "param" in
  let req := get "/api/v1/labels" (<[ "start" := ["0"] ]> tenantA) in
  lvalue r req <> EmptyString /\
  Query (scoped r req) !! "tenant" = None /\
  Query (scoped r req) !! "start" = Some ["0"].
Proof.
  cbv zeta.
  assert (lvalue (NewRoutes "tenant" "param")
            (get "/api/v1/labels" (<[ "start" := ["0"] ]> tenantA))
          <> EmptyString) as Hne by (vm_compute; discriminate).
  split; [exact Hne|].
  destruct (tenant_parameter_deleted _ _ Hne) as (_ & Hdel & _ & Hkeep & _).
  split; [exact Hdel|].
  rewrite Hkeep by discriminate. vm_compute. reflexivity.
Defined.

Lemma missing_tenant_rejected_witness :
  let r := NewRoutes "tenant" "param" in
  let req := get "/api/v1/query" {[ "query" := ["up"] ]} in
  lvalue r req = EmptyString /\
  ServeHTTP r req
  = Replied 400 ("Bad request. The " +:+ dquote +:+ "tenant" +:+ dquote
                 +:+ " query parameter must be provided.") /\
  sentUpstream (ServeHTTP r req) = false.
Proof.
  cbv zeta. split; [vm_compute; reflexivity|].
  destruct (missing_tenant_rejected (NewRoutes "tenant" "param")
              (get "/api/v1/query" {[ "query" := ["up"] ]}))
    as (Hr & Hu & _); [vm_compute; reflexivity|].
  split; [exact Hr|exact Hu].
Defined.

Lemma tenant_values_split_witness :
  let r := NewRoutes "tenant" "param" in
  let req := get "/api/v1/labels" {[ "tenant" := ["a,,b"] ]} in
  lvalue r req <> EmptyString /\
  Context (scoped r req) = Some ["a"; EmptyString; "b"].
Proof.
  cbv zeta.
  assert (lvalue (NewRoutes "tenant" "param")
            (get "/api/v1/labels" {[ "tenant" := ["a,,b"] ]})
          <> EmptyString) as Hne by (vm_compute; discriminate).
  split; [exact Hne|].
  destruct (tenant_values_split _ _ Hne) as (_ & Hctx & _).
  rewrite Hctx. vm_compute. reflexivity.
Defined.

Lemma tenant_context_not_empty_witness :
  let r := NewRoutes "X-Tenant" "header" in
  let req := getWithHeader "/federate" ∅ {[ "X-Tenant" := ["a,b"] ]} in
  lvalue r req <> EmptyString /\
  panics (federate r (scoped r req)) = false /\
  panics (federate r req) = true.
Proof.
  cbv zeta.
  assert (lvalue (NewRoutes "X-Tenant" "header")
            (getWithHeader "/federate" ∅ {[ "X-Tenant" := ["a,b"] ]})
          <> EmptyString) as Hne by (vm_compute; discriminate).
  split; [exact Hne|].
  destruct (tenant_context_not_empty _ _ Hne) as (_ & _ & Hok & _ & Hpanic).
  split.
  - apply (Hok (NewRoutes "X-Tenant" "header")). intros x. reflexivity.
  - apply Hpanic. left. reflexivity.
Defined.

Lemma method_not_listed_not_found_witness :
  let req := mkRequest "POST" "/federate" tenantA ∅ ∅ None in
  ~ In (Method req) ["GET"] /\
  ServeHTTP (NewRoutes "tenant" "param") req = Replied 404 "404 page not found".
Proof.
  cbv zeta.
  assert (~ In "POST" ["GET"]) as Hm
    by (simpl; intros [E|[]]; discriminate).
  split; [exact Hm|].
  apply (method_not_listed_not_found "tenant" "param"
           (mkRequest "POST" "/federate" tenantA ∅ ∅ None)
           "/federate" federate ["GET"]);
    [now left|reflexivity|reflexivity|exact Hm|vm_compute; discriminate].
Defined.

Lemma federate_match_is_tenant_matcher_witness :
  let r := NewRoutes "tenant" "param" in
  let req := get "/federate" (<[ "match[]" := ["up"] ]> tenantA) in
  lvalue r req <> EmptyString /\
  exists (m : Matcher) (req' : Request),
    m = mkMatcher "tenant" MatchEqual "a" /\
    ServeHTTP r req = Forwarded req' /\
    Query req' !! "match[]" = Some ["{tenant=" +:+ dquote +:+ "a" +:+ dquote +:+ "}"].
Proof.
  cbv zeta.
  assert (lvalue (NewRoutes "tenant" "param")
            (get "/federate" (<[ "match[]" := ["up"] ]> tenantA))
          <> EmptyString) as Hne by (vm_compute; discriminate).
  split; [exact Hne|].
  destruct (federate_match_is_tenant_matcher "tenant" "param"
              (get "/federate" (<[ "match[]" := ["up"] ]> tenantA))
              eq_refl eq_refl Hne)
    as (m & req' & Hm & Hs & Hq & _).
  exists m, req'.
  assert (m = mkMatcher "tenant" MatchEqual "a") as Heq.
  { vm_compute in Hm. now injection Hm as <-. }
  split; [exact Heq|]. split; [exact Hs|].
  rewrite Hq, Heq. reflexivity.
Defined.

Lemma series_without_match_forwarded_witness :
  let r := NewRoutes "tenant" "param" in
  let req := get "/api/v1/series" tenantA in
  lvalue r req <> EmptyString /\
  ServeHTTP r req = Forwarded (scoped r req) /\
  ServeHTTP r (get "/api/v1/query" tenantA) = Silent.
Proof.
  cbv zeta.
  assert (lvalue (NewRoutes "tenant" "param") (get "/api/v1/series" tenantA)
          <> EmptyString) as Hne by (vm_compute; discriminate).
  split; [exact Hne|].
  destruct (series_without_match_forwarded "tenant" "param"
              (get "/api/v1/series" tenantA))
    as [Hs Hq];
    [reflexivity|now left|exact Hne|reflexivity|reflexivity|].
  split; [exact Hs|].
  apply Hq;
    [now left|now left|vm_compute; discriminate|reflexivity|reflexivity|].
  eexists. reflexivity.
Defined.

Lemma query_failure_not_reported_witness :
  let r := NewRoutes "tenant" "param" in
  let req := get "/api/v1/query" (<[ "query" := ["up{"] ]> tenantA) in
  queryFails "tenant" (scoped r req) /\
  ServeHTTP r req = Silent /\
  is4xx (ServeHTTP r req) = false.
Proof.
  cbv zeta.
  assert (queryFails "tenant"
            (scoped (NewRoutes "tenant" "param")
               (get "/api/v1/query" (<[ "query" := ["up{"] ]> tenantA))))
    as Hfail by (left; eexists; vm_compute; reflexivity).
  split; [exact Hfail|].
  destruct (query_failure_not_reported "tenant" "param"
              (get "/api/v1/query" (<[ "query" := ["up{"] ]> tenantA)))
    as (Hs & _ & _ & H4);
    [now left|now left|vm_compute; discriminate|exact Hfail|].
  split; [exact Hs|exact H4].
Defined.

(** The design document's example for [/api/v1/series]. *)
Example series_two_matches :
  exists req',
    ServeHTTP (NewRoutes "tenant" "param")
      (get "/api/v1/series" (<[ "match[]" := ["up"; "down"] ]> tenantA))
    = Forwarded req' /\
    Query req' !! "match[]"
    = Some ["up{tenant=" +:+ dquote +:+ "a" +:+ dquote +:+ "}";
            "down{tenant=" +:+ dquote +:+ "a" +:+ dquote +:+ "}"].
Proof.
  eexists. split; [vm_compute; reflexivity|]. vm_compute. reflexivity.
Qed.


(** * Further properties of the code *)

(** ** Tenant values and the matcher built from them *)

Lemma Split_no_sep (sep : ascii) (s : string) :
  Forall (fun e => count sep e = 0) (Split s sep).
Proof.
  induction s as [|c s IH]; simpl.
  - repeat constructor.
  - destruct (Ascii.eqb c sep) eqn:E.
    + constructor; [reflexivity|exact IH].
    + destruct (Split s sep) as [|seg segs] eqn:Es;
        [now destruct (Split_not_nil sep s)|].
      inversion IH as [|? ? Hseg Hsegs]; subst.
      constructor; [|exact Hsegs]. simpl. now rewrite E.
Qed.

(** Splitting at one byte and joining with another replaces the one by
    the other. *)
Lemma Join_Split_replace (c d : ascii) (s : string) :
  Join (Split s c) (String d EmptyString) = replaceByte c d s.
Proof.
  induction s as [|a s IH]; simpl; [reflexivity|].
  destruct (Ascii.eqb a c).
  - destruct (Split s c) as [|seg segs] eqn:E;
      [now destruct (Split_not_nil c s)|].
    rewrite Join_cons, IH. reflexivity.
  - destruct (Split s c) as [|seg segs] eqn:E;
      [now destruct (Split_not_nil c s)|].
    destruct segs as [|seg' segs].
    + simpl in *. now rewrite IH.
    + rewrite Join_cons in *. rewrite <- IH. reflexivity.
Qed.

(** X1: the last panic of [createLabelMatcher] cannot happen: whatever
    the context, the function panics exactly when [mustLabelValue] does,
    with the same reason, and never for the size of the list. *)
Theorem createLabelMatcher_panics_as_mustLabelValue
    (ctx : option (list string)) (label : string) :
  (forall n, createLabelMatcher ctx label <> Panic (InvalidSize n)) /\
  (forall p, createLabelMatcher ctx label = Panic p <-> mustLabelValue ctx = Panic p).
Proof.
  destruct ctx as [[|v [|v' rest]]|];
    unfold createLabelMatcher, mbind, M_bind; simpl;
    (split; [intros n; discriminate|intros p; split; congruence]).
Qed.

Section TenantValues.

Context `{Externals}.

(** X2: the matcher of a request is decided by the commas of its tenant
    value.  Without comma it is the equality matcher on the whole value;
    with a comma it is a regular expression matcher whose pattern is the
    value, each comma turned into a bar, between [^(?:] and [)$]. *)
Theorem matcher_kind_by_comma (r : routes) (req : Request) :
  lvalue r req <> EmptyString ->
  ServeHTTP r req = ServeMux_ServeHTTP (mux r) (scoped r req) /\
  (count comma (lvalue r req) = 0 ->
   createLabelMatcher (Context (scoped r req)) (label r)
   = Ret (mkMatcher (label r) MatchEqual (lvalue r req))) /\
  (count comma (lvalue r req) <> 0 ->
   createLabelMatcher (Context (scoped r req)) (label r)
   = Ret (mkMatcher (label r) MatchRegexp
            ("^(?:" +:+ replaceByte comma bar (lvalue r req) +:+ ")$"))).
Proof.
  intros Hne. split; [now apply ServeHTTP_scoped|].
  rewrite scoped_Context. split; intros Hc.
  - rewrite (Split_whole comma _ Hc). reflexivity.
  - rewrite createLabelMatcher_many by (rewrite Split_length; lia).
    change "|" with (String bar EmptyString).
    now rewrite Join_Split_replace.
Qed.

(** X3: no tenant value of the request context holds a comma, and there
    is one value more than the raw value has commas. *)
Theorem tenant_values_hold_no_comma (r : routes) (req : Request) :
  lvalue r req <> EmptyString ->
  exists lvalues,
    ServeHTTP r req = ServeMux_ServeHTTP (mux r) (scoped r req) /\
    Context (scoped r req) = Some lvalues /\
    Forall (fun v => count comma v = 0) lvalues /\
    length lvalues = S (count comma (lvalue r req)).
Proof.
  intros Hne. exists (Split (lvalue r req) comma).
  split; [now apply ServeHTTP_scoped|]. split; [reflexivity|].
  split; [apply Split_no_sep|apply Split_length].
Qed.

(** X4: when the tenant value is read from the query string and the
    parameter is given several times, the first value alone counts: the
    gateway does the same as if the others were not there. *)
Theorem first_tenant_value_counts (r : routes) (req : Request)
    (v : string) (rest : list string) :
  labelLocation r <> "header" ->
  ServeHTTP r (setRawQuery req (<[ label r := v :: rest ]> (Query req)))
  = ServeHTTP r (setRawQuery req (<[ label r := [v] ]> (Query req))).
Proof.
  intros Hloc. unfold ServeHTTP.
  destruct (String.eqb_spec (labelLocation r) "header"); [contradiction|].
  unfold Values_Get. cbn [Query setRawQuery]. rewrite !lookup_insert_eq.
  destruct (String.eqb v EmptyString); [reflexivity|].
  unfold WithContext, setRawQuery, Values_Del. cbn.
  now rewrite !delete_insert_eq.
Qed.

End TenantValues.

(** ** What the handlers forward *)

Section Forwarding.

Context `{Externals}.

Lemma setRawQuery_Query (req : Request) : setRawQuery req (Query req) = req.
Proof. now destruct req. Qed.

(** X5: a handler of the file either stops (a plain return or a panic)
    or hands to the proxy the request it received with a new query
    string: method, path, headers and context are never touched.  (What
    is left of the body once the form is parsed is not tracked.) *)
Theorem handlers_touch_only_query (r : routes) (req : Request) (h : routes -> Handler) :
  In h [noop; query; series; federate] ->
  (exists q, h r req = handler r (setRawQuery req q)) \/
  h r req = Silent \/ (exists p, h r req = Panicked p).
Proof.
  intros Hin. simpl in Hin.
  destruct Hin as [<-|[<-|[<-|[<-|[]]]]].
  - left. exists (Query req). unfold noop. now rewrite setRawQuery_Query.
  - unfold query. destruct (ParseExpr _); [|now right; left].
    destruct (createLabelMatcher _ _); [|right; right; now eexists].
    destruct (EnforceNode _ _); [|now right; left].
    left. now eexists.
  - unfold series.
    destruct (Form req "match[]") as [matches|]; [|left; now eexists].
    destruct (seriesLoop r req matches _) as [out|q] eqn:E; [|left; now eexists].
    right. revert E. generalize (Values_Del (Query req) "match[]").
    induction matches as [|x matches IH]; intros q0; simpl; [discriminate|].
    destruct (ParseExpr x); [|intros [= <-]; now left].
    destruct (createLabelMatcher _ _); [|intros [= <-]; right; now eexists].
    destruct (EnforceNode _ _); [apply IH|intros [= <-]; now left].
  - unfold federate.
    destruct (createLabelMatcher _ _); [|right; right; now eexists].
    left. now eexists.
Qed.



Lemma seriesLoop_fails (r : routes) (req : Request) (m : Matcher)
    (matches : list string) :
  createLabelMatcher (Context req) (label r) = Ret m ->
  Exists (fun x => rewriteMatch m x = None) matches ->
  forall q, seriesLoop r req matches q = inl Silent.
Proof.
  intros Hm Hex. induction matches as [|x matches IH]; intros q.
  - inversion Hex.
  - simpl. destruct (ParseExpr x) as [expr|] eqn:Ep; [|reflexivity].
    rewrite Hm.
    destruct (EnforceNode [m] expr) as [expr'|] eqn:Ee; [|reflexivity].
    apply IH. inversion Hex as [? ? Hx|? ? Hrest]; subst; [|exact Hrest].
    unfold rewriteMatch in Hx. rewrite Ep, Ee in Hx. discriminate.
Qed.

(** X7: [series] is all or nothing.  When one of the [match[]] values
    does not parse or is refused by the enforcer, the handler returns
    without writing a response and the proxy is not called, wherever the
    value stands in the list and whatever the others are. *)
Theorem series_all_or_nothing (r : routes) (req : Request) (m : Matcher)
    (matches : list string) :
  Form req "match[]" = Some matches ->
  createLabelMatcher (Context req) (label r) = Ret m ->
  Exists (fun x => rewriteMatch m x = None) matches ->
  series r req = Silent /\
  forall h : Handler,
    series (mkRoutes h (label r) (labelLocation r) (mux r)) req = Silent.
Proof.
  intros Hform Hm Hex. split.
  - unfold series. rewrite Hform.
    now rewrite (seriesLoop_fails r req m matches Hm Hex).
  - intros h. unfold series. rewrite Hform.
    now rewrite (seriesLoop_fails (mkRoutes h (label r) (labelLocation r) (mux r))
                   req m matches Hm Hex).
Qed.

(** X8: [query] and [series] parse before they look for the tenant
    values: on a request without tenant values in its context they panic
    only once an expression has parsed.  With nothing that parses
    [query] returns silently, and [series] does so when its first
    [match[]] value does not parse and goes to the proxy when there is
    none. *)
Theorem parsing_precedes_tenant_lookup (r : routes) (req : Request) :
  Context req = None ->
  ((exists e, ParseExpr (FormValue req "query") = Err e) -> query r req = Silent) /\
  (forall expr, ParseExpr (FormValue req "query") = Ok expr ->
                query r req = Panicked CantFindValue) /\
  (Form req "match[]" = None ->
   series r req = handler r (setRawQuery req (Values_Del (Query req) "match[]"))) /\
  (forall x rest e, Form req "match[]" = Some (x :: rest) ->
                    ParseExpr x = Err e -> series r req = Silent) /\
  (forall x rest expr, Form req "match[]" = Some (x :: rest) ->
                       ParseExpr x = Ok expr ->
                       series r req = Panicked CantFindValue).
Proof.
  intros Hctx. unfold query, series. rewrite Hctx.
  split; [|split; [|split; [|split]]].
  - intros [e ->]. reflexivity.
  - intros expr ->. reflexivity.
  - intros ->. reflexivity.
  - intros x rest e -> Hx. simpl. now rewrite Hx.
  - intros x rest expr -> Hx. simpl. rewrite Hx, Hctx. reflexivity.
Qed.


Lemma seriesLoop_ignores_mux (r : routes) (m : ServeMux) (req : Request)
    (matches : list string) :
  forall q,
    seriesLoop (mkRoutes (handler r) (label r) (labelLocation r) m) req matches q
    = seriesLoop r req matches q.
Proof.
  induction matches as [|x matches IH]; intros q; [reflexivity|].
  simpl. destruct (ParseExpr x); [|reflexivity].
  destruct (createLabelMatcher _ _); [|reflexivity].
  destruct (EnforceNode _ _); [apply IH|reflexivity].
Qed.

(** X15: the handlers of the file read the label and the proxy of
    [routes] and not its router: bound to routes that differ in [mux]
    only, they do the same on every request.  So the handlers that
    [NewRoutes] registers before it assigns [r.mux] are those of the
    routes it returns. *)
Theorem handlers_ignore_mux (r : routes) (m : ServeMux) (req : Request)
    (h : routes -> Handler) :
  In h [noop; query; series; federate] ->
  h (mkRoutes (handler r) (label r) (labelLocation r) m) req = h r req.
Proof.
  intros Hin. simpl in Hin.
  destruct Hin as [<-|[<-|[<-|[<-|[]]]]]; try reflexivity.
  unfold series. destruct (Form req "match[]") as [matches|]; [|reflexivity].
  now rewrite seriesLoop_ignores_mux.
Qed.

End Forwarding.

(** ** The routes as a whole *)

Lemma prefix_refl (s : string) : String.prefix s s = true.
Proof.
  induction s as [|c s IH]; [reflexivity|]. simpl.
  now destruct (Ascii.ascii_dec c c).
Qed.

Section Dispatch.

Context `{Externals}.

Lemma pathMatch_refl (p : string) : pathMatch p p = true.
Proof.
  unfold pathMatch. destruct (endsInSlash p);
    [apply prefix_refl|apply String.eqb_refl].
Qed.

Lemma exact_covers (m : ServeMux) (path : string) (e : string * Handler) :
  exact m path = Some e -> In e m /\ fst e = path.
Proof.
  intros Hfind. apply List.find_some in Hfind as [Hin Heq].
  split; [exact Hin|now apply String.eqb_eq].
Qed.

Lemma longest_covers (m : ServeMux) (path : string) :
  forall best e,
    longest m path best = Some e ->
    best = Some e \/ (In e m /\ pathMatch (fst e) path = true).
Proof.
  induction m as [|[pattern h] m IH]; intros best e; simpl.
  - now left.
  - destruct (endsInSlash pattern) eqn:Es; simpl.
    + destruct (String.prefix pattern path) eqn:Ep; simpl.
      * destruct (match best with Some (b, _) => _ | None => true end).
        -- intros Hl. destruct (IH _ _ Hl) as [[= <-]|[Hin Hm]].
           ++ right. split; [now left|]. unfold pathMatch. simpl. now rewrite Es.
           ++ right. split; [now right|exact Hm].
        -- intros Hl. destruct (IH _ _ Hl) as [Hb|[Hin Hm]];
             [now left|right; split; [now right|exact Hm]].
      * intros Hl. destruct (IH _ _ Hl) as [Hb|[Hin Hm]];
          [now left|right; split; [now right|exact Hm]].
    + intros Hl. destruct (IH _ _ Hl) as [Hb|[Hin Hm]];
        [now left|right; split; [now right|exact Hm]].
Qed.

Lemma NewRoutes_entry (label loc : string) (e : string * Handler) :
  In e (mux (NewRoutes label loc)) ->
  exists hm ms, In (fst e, hm, ms) routeTable.
Proof.
  cbn [mux NewRoutes]. intros Hin.
  apply in_map_iff in Hin as ([[p hm] ms] & <- & Hrow).
  now exists hm, ms.
Qed.

(** X9: there is no default route.  A request on a clean path that no
    pattern of [NewRoutes] covers, also not with a slash added, is
    answered 404 by the router; so it is by the gateway when the request
    carries a tenant value, and nothing goes upstream. *)
Theorem uncovered_path_not_found (label loc : string) (req : Request) :
  (forall p hm ms, In (p, hm, ms) routeTable ->
                   pathMatch p (Path req) = false /\
                   pathMatch p (Path req +:+ "/") = false) ->
  clean (Path req) = true ->
  ServeMux_ServeHTTP (mux (NewRoutes label loc)) req
  = Replied 404 "404 page not found" /\
  (lvalue (NewRoutes label loc) req <> EmptyString ->
   ServeHTTP (NewRoutes label loc) req = Replied 404 "404 page not found").
Proof.
  intros Hrows Hclean.
  assert (forall path,
             (forall p hm ms, In (p, hm, ms) routeTable -> pathMatch p path = false) ->
             exact (mux (NewRoutes label loc)) path = None) as Hexact.
  { intros path Hnone.
    destruct (exact _ path) as [e|] eqn:E; [|reflexivity].
    apply exact_covers in E as [Hin Heq].
    destruct (NewRoutes_entry _ _ _ Hin) as (hm & ms & Hrow).
    specialize (Hnone _ _ _ Hrow). rewrite Heq, pathMatch_refl in Hnone.
    discriminate. }
  assert (longest (mux (NewRoutes label loc)) (Path req) None = None) as Hlongest.
  { destruct (longest _ _ None) as [e|] eqn:E; [|reflexivity].
    apply longest_covers in E as [Hb|[Hin Hm]]; [discriminate|].
    destruct (NewRoutes_entry _ _ _ Hin) as (hm & ms & Hrow).
    destruct (Hrows _ _ _ Hrow) as [Hnone _]. congruence. }
  assert (forall req2, Path req2 = Path req ->
            ServeMux_ServeHTTP (mux (NewRoutes label loc)) req2
            = Replied 404 "404 page not found") as Hmux.
  { intros req2 Hsame. unfold ServeMux_ServeHTTP, ServeMux_Handler.
    rewrite Hsame, (cleanPath_clean _ Hclean), String.eqb_refl.
    unfold shouldRedirect, ServeMux_handler, ServeMux_match.
    rewrite (Hexact (Path req)) by (intros p hm ms Hrow; now apply Hrows in Hrow).
    rewrite (Hexact (Path req +:+ "/")) by (intros p hm ms Hrow; now apply Hrows in Hrow).
    rewrite Hlongest.
    destruct (String.eqb (Method req2) "CONNECT");
      destruct (String.eqb (Path req) EmptyString); reflexivity. }
  split; [now apply Hmux|].
  intros Hne. rewrite ServeHTTP_scoped by assumption.
  now apply Hmux.
Qed.

Lemma ServeHTTP_listed (label loc : string) (req : Request)
    (p : string) (hm : routes -> Handler) (ms : list string) :
  In (p, hm, ms) routeTable ->
  pathMatch p (Path req) = true ->
  clean (Path req) = true ->
  In (Method req) ms ->
  lvalue (NewRoutes label loc) req <> EmptyString ->
  ServeHTTP (NewRoutes label loc) req
  = hm (mkRoutes proxy label loc []) (scoped (NewRoutes label loc) req).
Proof.
  intros Hrow Hmatch Hclean Hmethod Hne.
  rewrite (ServeHTTP_dispatch _ _ _ _ _ _ Hne Hrow Hmatch Hclean).
  now apply enforceMethods_allowed.
Qed.

(** X10: a request that carries a tenant value, on a clean path covered
    by a pattern of [NewRoutes] and with a method listed for it, is
    served by the handler registered under the pattern, which receives
    the request with the tenant values in its context and without the
    tenant parameter. *)
Theorem listed_method_served (label loc : string) (req : Request)
    (p : string) (hm : routes -> Handler) (ms : list string) :
  In (p, hm, ms) routeTable ->
  pathMatch p (Path req) = true ->
  clean (Path req) = true ->
  In (Method req) ms ->
  lvalue (NewRoutes label loc) req <> EmptyString ->
  ServeHTTP (NewRoutes label loc) req
  = hm (mkRoutes proxy label loc []) (scoped (NewRoutes label loc) req) /\
  Context (scoped (NewRoutes label loc) req)
  = Some (Split (lvalue (NewRoutes label loc) req) comma) /\
  Query (scoped (NewRoutes label loc) req) !! label = None.
Proof.
  intros Hrow Hmatch Hclean Hmethod Hne.
  split; [now apply (ServeHTTP_listed label loc req p hm ms)|].
  split; [reflexivity|].
  rewrite scoped_Query. apply lookup_delete_eq.
Qed.

(** X11: the label, label value, alert and rule listings pass through.
    A GET request on one of these paths that carries a tenant value goes
    upstream as it came, but for the tenant parameter, which is deleted
    from the query string. *)
Theorem listings_pass_through (label loc : string) (req : Request) :
  In (Path req) ["/api/v1/labels"; "/api/v1/label/__name__/values";
                 "/api/v1/alerts"; "/api/v1/rules"] ->
  Method req = "GET" ->
  lvalue (NewRoutes label loc) req <> EmptyString ->
  exists req',
    ServeHTTP (NewRoutes label loc) req = Forwarded req' /\
    Query req' = delete label (Query req) /\
    Method req' = Method req /\ Path req' = Path req /\
    Header req' = Header req /\ PostForm req' = PostForm req.
Proof.
  intros Hpath Hmethod Hne.
  exists (scoped (NewRoutes label loc) req). split; [|repeat split].
  rewrite (ServeHTTP_listed label loc req (Path req) noop ["GET"]).
  - reflexivity.
  - simpl in Hpath. destruct Hpath as [<-|[<-|[<-|[<-|[]]]]]; simpl; tauto.
  - simpl in Hpath. destruct Hpath as [<-|[<-|[<-|[<-|[]]]]]; reflexivity.
  - simpl in Hpath. destruct Hpath as [<-|[<-|[<-|[<-|[]]]]]; reflexivity.
  - rewrite Hmethod. now left.
  - exact Hne.
Qed.

(** X12: a request to a query endpoint that carries a tenant value and
    whose [query] value parses and passes the enforcer is forwarded with
    that value replaced by the rewritten expression, alone under its
    name; the enforcer gets the matcher built from the tenant values,
    and the other parameters but the tenant's are as they came. *)
Theorem query_rewrites_expression (label loc : string) (req : Request)
    (m : Matcher) (out : string) :
  Path req = "/api/v1/query" \/ Path req = "/api/v1/query_range" ->
  Method req = "GET" \/ Method req = "POST" ->
  lvalue (NewRoutes label loc) req <> EmptyString ->
  createLabelMatcher (Some (Split (lvalue (NewRoutes label loc) req) comma)) label
  = Ret m ->
  rewriteMatch m (FormValue (scoped (NewRoutes label loc) req) "query") = Some out ->
  exists req',
    ServeHTTP (NewRoutes label loc) req = Forwarded req' /\
    Query req' !! "query" = Some [out] /\
    (forall key, key <> "query" -> key <> label ->
                 Query req' !! key = Query req !! key).
Proof.
  intros Hpath Hmethod Hne Hm Hout.
  assert (ServeHTTP (NewRoutes label loc) req
          = query (mkRoutes proxy label loc []) (scoped (NewRoutes label loc) req))
    as ->.
  { destruct Hpath as [Hp|Hp].
    - apply (ServeHTTP_listed label loc req "/api/v1/query" query ["GET"; "POST"]);
        [simpl; tauto|now rewrite Hp|now rewrite Hp| |assumption].
      destruct Hmethod as [-> | ->]; simpl; tauto.
    - apply (ServeHTTP_listed label loc req "/api/v1/query_range" query ["GET"; "POST"]);
        [simpl; tauto|now rewrite Hp|now rewrite Hp| |assumption].
      destruct Hmethod as [-> | ->]; simpl; tauto. }
  unfold query. unfold rewriteMatch in Hout.
  destruct (ParseExpr _) as [expr|]; [|discriminate].
  rewrite scoped_Context.
  replace (createLabelMatcher _ _) with (Ret m).
  destruct (EnforceNode [m] expr) as [expr'|]; [|discriminate].
  injection Hout as <-. eexists. split; [reflexivity|].
  cbn [Query setRawQuery]. unfold Values_Set.
  split; [apply lookup_insert_eq|].
  intros key Hk1 Hk2. rewrite lookup_insert_ne by (intros E; now apply Hk1).
  rewrite scoped_Query, NewRoutes_label.
  apply lookup_delete_ne. intros E. now apply Hk2.
Qed.

End Dispatch.

(** ** The response stage *)

Section ResponseProperties.

Context `{Externals} `{ResponseStage}.

(** X13: [ModifyResponse] rewrites the responses to [/api/v1/rules] and
    [/api/v1/alerts], each with its own modifier, and returns any other
    response as it is, with no error; the paths that have a modifier are
    routes of [NewRoutes] that pass GET requests through. *)
Theorem ModifyResponse_rules_and_alerts_only (r : routes) (resp : Response) :
  (Response_Path resp <> "/api/v1/rules" ->
   Response_Path resp <> "/api/v1/alerts" ->
   ModifyResponse r resp = (resp, None)) /\
  (Response_Path resp = "/api/v1/rules" ->
   ModifyResponse r resp = rulesModifier r resp) /\
  (Response_Path resp = "/api/v1/alerts" ->
   ModifyResponse r resp = alertsModifier r resp) /\
  (forall path, is_Some (modifiers r !! path) ->
                In (path, noop, ["GET"]) routeTable).
Proof.
  unfold ModifyResponse, modifiers. split; [|split; [|split]].
  - intros Hrules Halerts.
    rewrite lookup_insert_ne by (intros E; now apply Halerts).
    rewrite lookup_insert_ne by (intros E; now apply Hrules).
    now rewrite lookup_empty.
  - intros ->. rewrite lookup_insert_ne by discriminate.
    now rewrite lookup_insert_eq.
  - intros ->. now rewrite lookup_insert_eq.
  - intros path [f Hf].
    apply lookup_insert_Some in Hf as [[<- _]|[_ Hf]]; [simpl; tauto|].
    apply lookup_insert_Some in Hf as [[<- _]|[_ Hf]]; [simpl; tauto|].
    now rewrite lookup_empty in Hf.
Qed.

End ResponseProperties.

(** ** The further properties on concrete requests *)

Import SampleResponse.

Lemma createLabelMatcher_panics_as_mustLabelValue_witness :
  mustLabelValue (Some []) = Panic EmptyValue /\
  createLabelMatcher (Some []) "tenant" = Panic EmptyValue.
Proof.
  split; [reflexivity|].
  apply (proj2 (createLabelMatcher_panics_as_mustLabelValue (Some []) "tenant")).
  reflexivity.
Defined.

Lemma matcher_kind_by_comma_witness :
  let r := NewRoutes "tenant" "param" in
  let req := get "/federate" {[ "tenant" := ["a,b"] ]} in
  lvalue r req <> EmptyString /\ count comma (lvalue r req) <> 0 /\
  createLabelMatcher (Context (scoped r req)) "tenant"
  = Ret (mkMatcher "tenant" MatchRegexp "^(?:a|b)$").
Proof.
  cbv zeta.
  assert (lvalue (NewRoutes "tenant" "param")
            (get "/federate" {[ "tenant" := ["a,b"] ]}) <> EmptyString)
    as Hne by (vm_compute; discriminate).
  assert (count comma (lvalue (NewRoutes "tenant" "param")
            (get "/federate" {[ "tenant" := ["a,b"] ]})) <> 0)
    as Hc by (vm_compute; discriminate).
  split; [exact Hne|]. split; [exact Hc|].
  destruct (matcher_kind_by_comma _ _ Hne) as (_ & _ & Hre).
  etransitivity; [exact (Hre Hc)|]. vm_compute. reflexivity.
Defined.

Lemma tenant_values_hold_no_comma_witness :
  let r := NewRoutes "tenant" "param" in
  let req := get "/federate" {[ "tenant" := ["a,,b"] ]} in
  lvalue r req <> EmptyString /\
  exists lvalues, Context (scoped r req) = Some lvalues /\ length lvalues = 3.
Proof.
  cbv zeta.
  assert (lvalue (NewRoutes "tenant" "param")
            (get "/federate" {[ "tenant" := ["a,,b"] ]}) <> EmptyString)
    as Hne by (vm_compute; discriminate).
  split; [exact Hne|].
  destruct (tenant_values_hold_no_comma _ _ Hne) as (lvalues & _ & Hctx & _ & Hlen).
  exists lvalues. split; [exact Hctx|]. rewrite Hlen. vm_compute. reflexivity.
Defined.

Lemma first_tenant_value_counts_witness :
  let r := NewRoutes "tenant" "param" in
  labelLocation r <> "header" /\
  ServeHTTP r (get "/api/v1/labels" {[ "tenant" := ["a"; "b"] ]})
  = ServeHTTP r (get "/api/v1/labels" {[ "tenant" := ["a"] ]}).
Proof.
  cbv zeta. split; [discriminate|].
  apply (first_tenant_value_counts (NewRoutes "tenant" "param")
           (get "/api/v1/labels" ∅) "a" ["b"]).
  discriminate.
Defined.

Lemma handlers_touch_only_query_witness :
  let r := NewRoutes "tenant" "param" in
  let req := mkRequest "GET" "/federate" ∅ ∅ ∅ (Some ["a"]) in
  In federate [noop; query; series; federate] /\
  ((exists q, federate r req = handler r (setRawQuery req q)) \/
   federate r req = Silent \/ (exists p, federate r req = Panicked p)).
Proof.
  cbv zeta.
  assert (In federate [noop; query; series; federate]) as Hin
    by (simpl; tauto).
  split; [exact Hin|].
  exact (handlers_touch_only_query (NewRoutes "tenant" "param")
           (mkRequest "GET" "/federate" ∅ ∅ ∅ (Some ["a"])) federate Hin).
Defined.


Lemma series_all_or_nothing_witness :
  let r := NewRoutes "tenant" "param" in
  let req := mkRequest "GET" "/api/v1/series"
               {[ "match[]" := ["up"; "down{"] ]} ∅ ∅ (Some ["a"]) in
  Exists (fun x => rewriteMatch (mkMatcher "tenant" MatchEqual "a") x = None)
         ["up"; "down{"] /\
  series r req = Silent.
Proof.
  cbv zeta.
  assert (Exists (fun x => rewriteMatch (mkMatcher "tenant" MatchEqual "a") x = None)
            ["up"; "down{"]) as Hex
    by (apply Exists_cons_tl, Exists_cons_hd; reflexivity).
  split; [exact Hex|].
  apply (series_all_or_nothing (NewRoutes "tenant" "param") _
           (mkMatcher "tenant" MatchEqual "a") ["up"; "down{"]);
    [reflexivity|reflexivity|exact Hex].
Defined.

Lemma parsing_precedes_tenant_lookup_witness :
  let r := NewRoutes "tenant" "param" in
  let req := get "/api/v1/query" {[ "query" := ["up"] ]} in
  Context req = None /\ query r req = Panicked CantFindValue.
Proof.
  cbv zeta. split; [reflexivity|].
  destruct (parsing_precedes_tenant_lookup (NewRoutes "tenant" "param")
              (get "/api/v1/query" {[ "query" := ["up"] ]}) eq_refl)
    as (_ & Hpanic & _).
  apply (Hpanic (mkSelector "up" [])). reflexivity.
Defined.

Lemma uncovered_path_not_found_witness :
  let req := get "/metrics" tenantA in
  clean (Path req) = true /\
  ServeHTTP (NewRoutes "tenant" "param") req = Replied 404 "404 page not found".
Proof.
  cbv zeta. split; [reflexivity|].
  apply (uncovered_path_not_found "tenant" "param" (get "/metrics" tenantA));
    [|reflexivity|vm_compute; discriminate].
  intros p hm ms Hrow. simpl in Hrow.
  repeat (destruct Hrow as [Hrow|Hrow];
          [injection Hrow as <- <- <-; split; reflexivity|]).
  contradiction.
Defined.

Lemma listed_method_served_witness :
  let req := mkRequest "DELETE" "/api/v2/silence/abc" tenantA ∅ ∅ None in
  pathMatch "/api/v2/silence/" (Path req) = true /\
  ServeHTTP (NewRoutes "tenant" "param") req
  = deleteSilence (mkRoutes proxy "tenant" "param" [])
      (scoped (NewRoutes "tenant" "param") req).
Proof.
  cbv zeta. split; [reflexivity|].
  apply (listed_method_served "tenant" "param"
           (mkRequest "DELETE" "/api/v2/silence/abc" tenantA ∅ ∅ None)
           "/api/v2/silence/" deleteSilence ["DELETE"]);
    [simpl; tauto|reflexivity|reflexivity|now left|vm_compute; discriminate].
Defined.

Lemma listings_pass_through_witness :
  let req := get "/api/v1/rules" (<[ "type" := ["alert"] ]> tenantA) in
  Method req = "GET" /\
  exists req',
    ServeHTTP (NewRoutes "tenant" "param") req = Forwarded req' /\
    Query req' = {[ "type" := ["alert"] ]}.
Proof.
  cbv zeta. split; [reflexivity|].
  destruct (listings_pass_through "tenant" "param"
              (get "/api/v1/rules" (<[ "type" := ["alert"] ]> tenantA)))
    as (req' & Hs & Hq & _);
    [simpl; tauto|reflexivity|vm_compute; discriminate|].
  exists req'. split; [exact Hs|]. rewrite Hq. vm_compute. reflexivity.
Defined.

Lemma query_rewrites_expression_witness :
  let req := get "/api/v1/query" (<[ "query" := ["up"] ]> tenantA) in
  lvalue (NewRoutes "tenant" "param") req <> EmptyString /\
  exists req',
    ServeHTTP (NewRoutes "tenant" "param") req = Forwarded req' /\
    Query req' !! "query"
    = Some ["up{tenant=" +:+ dquote +:+ "a" +:+ dquote +:+ "}"].
Proof.
  cbv zeta.
  assert (lvalue (NewRoutes "tenant" "param")
            (get "/api/v1/query" (<[ "query" := ["up"] ]> tenantA))
          <> EmptyString) as Hne by (vm_compute; discriminate).
  split; [exact Hne|].
  destruct (query_rewrites_expression "tenant" "param"
              (get "/api/v1/query" (<[ "query" := ["up"] ]> tenantA))
              (mkMatcher "tenant" MatchEqual "a")
              ("up{tenant=" +:+ dquote +:+ "a" +:+ dquote +:+ "}"))
    as (req' & Hs & Hq & _);
    [now left|now left|exact Hne|reflexivity|vm_compute; reflexivity|].
  exists req'. split; [exact Hs|exact Hq].
Defined.

Lemma ModifyResponse_rules_and_alerts_only_witness :
  let r := NewRoutes "tenant" "param" in
  ModifyResponse r (response "/api/v1/labels" "body")
  = (response "/api/v1/labels" "body", None) /\
  ModifyResponse r (response "/api/v1/rules" "body")
  = (response "/api/v1/rules" EmptyString, None) /\
  snd (ModifyResponse r (response "/api/v1/alerts" "body")) <> None.
Proof.
  cbv zeta.
  destruct (ModifyResponse_rules_and_alerts_only (NewRoutes "tenant" "param")
              (response "/api/v1/labels" "body")) as (Hother & _).
  destruct (ModifyResponse_rules_and_alerts_only (NewRoutes "tenant" "param")
              (response "/api/v1/rules" "body")) as (_ & Hrules & _).
  destruct (ModifyResponse_rules_and_alerts_only (NewRoutes "tenant" "param")
              (response "/api/v1/alerts" "body")) as (_ & _ & Halerts & _).
  split; [apply Hother; discriminate|].
  split; [rewrite Hrules; reflexivity|].
  rewrite Halerts by reflexivity. discriminate.
Defined.


Lemma handlers_ignore_mux_witness :
  let r := NewRoutes "tenant" "param" in
  let req := mkRequest "GET" "/api/v1/series"
               {[ "match[]" := ["up"] ]} ∅ ∅ (Some ["a"]) in
  In series [noop; query; series; federate] /\
  series (mkRoutes proxy "tenant" "param" []) req = series r req.
Proof.
  cbv zeta.
  assert (In series [noop; query; series; federate]) as Hin by (simpl; tauto).
  split; [exact Hin|].
  exact (handlers_ignore_mux (NewRoutes "tenant" "param") []
           (mkRequest "GET" "/api/v1/series"
              {[ "match[]" := ["up"] ]} ∅ ∅ (Some ["a"])) series Hin).
Defined.
